(** * UNS payload publishers: schema classification, validation gate and
      publish pipeline

    Shallow embedding of [examples/pump_mqtt_publisher.py] and
    [examples/tank_mqtt_publisher.py].  The two scripts share, line for
    line, the functions modelled here: [validate_payload],
    [publish_payload] and the body of the per-cycle publishing loop
    ([publish_pump_data] / [publish_tank_data]).

    Python strings are [string]; a payload (a Python [dict] with string
    keys) is a [gmap string json]; the module-level [SCHEMAS] dictionary
    is a [gmap string json] as well, because every schema document is the
    result of [json.load].  Logging, printing and the MQTT client are
    effects: they are threaded through a small state-and-exception monad
    whose state holds the client object and the chronological list of
    observable events. *)

From Stdlib Require Import ZArith String Ascii List Floats.SpecFloat.
From Stdlib Require Import DecimalString.
From stdpp Require Import base option gmap strings list fin_maps.

Local Open Scope string_scope.
Local Open Scope list_scope.

(** ** JSON values *)

(** What [json.load] produces and [json.dumps] consumes.  Python keeps
    [int] and [float] apart; both occur in the payloads. *)
#[warnings="-register-all"]
Inductive json : Type :=
  | JNull
  | JBool (b : bool)
  | JInt (z : Z)
  | JFloat (f : spec_float)
  | JStr (s : string)
  | JList (l : list json)
  | JObj (m : gmap string json).

(** Python truthiness of a JSON value ([if e.validator_value:]). *)
Definition json_truthy (v : json) : bool :=
  match v with
  | JNull => false
  | JBool b => b
  | JInt z => negb (Z.eqb z 0)
  | JFloat f => match f with S754_zero _ => false | _ => true end
  | JStr s => negb (String.eqb s "")
  | JList l => match l with [] => false | _ => true end
  | JObj m => negb (bool_decide (m = ∅))
  end.

(** ** The [in] operator *)

(** [p in s] on two Python strings: [p] occurs in [s] as a contiguous
    substring. *)
Fixpoint contains (p s : string) : bool :=
  if String.prefix p s then true
  else match s with
       | EmptyString => false
       | String _ s' => contains p s'
       end.

(** [str.lower()] and [str.upper()], on the ASCII letters the asset
    names and the table keys are made of. *)
Definition lower_char (c : ascii) : ascii :=
  let n := nat_of_ascii c in
  if (65 <=? n)%nat && (n <=? 90)%nat then ascii_of_nat (n + 32) else c.

Definition upper_char (c : ascii) : ascii :=
  let n := nat_of_ascii c in
  if (97 <=? n)%nat && (n <=? 122)%nat then ascii_of_nat (n - 32) else c.

Fixpoint ascii_lower (s : string) : string :=
  match s with
  | EmptyString => EmptyString
  | String c s' => String (lower_char c) (ascii_lower s')
  end.

Fixpoint ascii_upper (s : string) : string :=
  match s with
  | EmptyString => EmptyString
  | String c s' => String (upper_char c) (ascii_upper s')
  end.

(** [k in d] on a Python dict: [k] is one of the keys of [d]. *)
Definition has_key (k : string) (d : gmap string json) : bool :=
  bool_decide (is_Some (d !! k)).

(** ** Schema classification ([publish_payload], first half) *)

(** Topic-based detection: the [if]/[elif] chain on the topic, with the
    exact string literals of the source.  [None] is Python's [None], the
    initial value of [schema_name]. *)
Definition classify_topic (topic : string) : option string :=
  if contains "/edge/" topic then Some "reading"
  else if contains "/reading/" topic then Some "reading"
  else if contains "/measurement/" topic then Some "measurement"
  else if contains "/count/" topic then Some "count"
  else if contains "/kpi/" topic then Some "kpi"
  else if contains "/asset" topic then Some "asset"
  else if contains "/alert" topic then Some "alert"
  else if contains "/state" topic then Some "state"
  else if contains "/product" topic && negb (contains "/production" topic)
       then Some "product"
  else if contains "/production" topic then Some "production"
  else if contains "/value" topic then Some "value"
  else None.

(** Payload-structure detection: the second [if]/[elif] chain. *)
Definition classify_payload (payload : gmap string json) : option string :=
  if has_key "assetId" payload then Some "asset"
  else if has_key "alertId" payload then Some "alert"
  else if has_key "stateId" payload then Some "state"
  else if has_key "measurementId" payload then Some "measurement"
  else if has_key "countId" payload then Some "count"
  else if has_key "kpiId" payload then Some "kpi"
  else if has_key "productId" payload then Some "product"
  else if has_key "productionId" payload then Some "production"
  else if has_key "valueId" payload then Some "value"
  else if has_key "type" payload && has_key "value" payload
          && has_key "unit" payload
       then Some "reading"
  else None.

(** Truthiness of [schema_name], which is [None] or a [str]. *)
Definition truthy (schema_name : option string) : bool :=
  match schema_name with
  | Some (String _ _) => true
  | _ => false
  end.

(** The value of [schema_name] when the validation step is reached: the
    fallback runs under [if not schema_name:]. *)
Definition classify (topic : string) (payload : gmap string json)
  : option string :=
  let schema_name := classify_topic topic in
  if negb (truthy schema_name) then
    match classify_payload payload with
    | Some n => Some n
    | None => schema_name
    end
  else schema_name.

(** ** Effects: exceptions, observable events, the world *)

(** One step of [jsonschema]'s [absolute_path]: a property name or an
    array index. *)
Inductive path_elem : Type :=
  | PKey (k : string)
  | PIdx (i : Z).

(** The attributes of [jsonschema.ValidationError] that [validate_payload]
    reads. *)
Record ValidationError : Type := mkValidationError {
  message : string;
  absolute_path : list path_elem;
  validator_value : json
}.

(** Any other Python exception (a subclass of [Exception]): its class
    name and its text. *)
Inductive exn : Type :=
  | PyException (class_name text : string).

(** What a statement or call does: it returns a value or raises. *)
Inductive outcome (A : Type) : Type :=
  | Returned (a : A)
  | Raised (e : exn).
Arguments Returned {A} a.
Arguments Raised {A} e.

(** What [jsonschema.validate(instance=..., schema=...)] does: it returns,
    raises [ValidationError], or raises something else (for instance
    [SchemaError] on a malformed schema document). *)
Inductive validation : Type :=
  | Valid
  | Invalid (e : ValidationError)
  | Failed (e : exn).

Inductive level : Type := DEBUG | INFO | WARNING | ERROR.

(** The texts that are logged or printed, by the f-string that builds
    them. *)
Inductive report : Type :=
  | NoSchemaFound (schema_name : string)
  | SchemaValidationFailed (schema_name : string) (e : ValidationError)
  | SchemaValidationFailedFor (schema_name : string)
  | ErrorText (m : string)
  | ErrorPath (p : list path_elem)
  | ErrorPathRoot
  | ErrorExpected (v : json)
  | NotPublishing (topic : string)
  | UnknownSchemaType (topic : string)
  | PublishedTo (topic : string)
  | PayloadText (payload_json : string)
  | FailedToPublish (topic : string) (rc : Z)
  | PublishingSchema (schema_type : string)
  | PublishingValues (value_description : string)
  | PublishingFor (pump_name : string) (pump_id : Z)
  | ItemPublished (indent : nat) (description topic : string)
  | ItemValidationFailed (indent : nat) (description : string)
  | ErrorPublishing (schema_type : string) (e : exn)
  | ItemError (description : string) (e : exn).

(** Observable events, in the order they happen.  [Transmit] is the call
    [client.publish(topic, payload_json, qos=MQTT_QOS)] being reached. *)
Inductive event : Type :=
  | Log (l : level) (r : report)
  | Stdout (r : report)
  | Transmit (topic payload_json : string) (qos : Z).

Definition is_transmit (ev : event) : bool :=
  match ev with Transmit _ _ _ => true | _ => false end.

(** [mqtt.MQTT_ERR_SUCCESS] of paho-mqtt. *)
Definition MQTT_ERR_SUCCESS : Z := 0.

(** The libraries the scripts call are taken as given: the MQTT client
    object with its [publish] method (which returns a result carrying
    [rc], or raises, and may change the client), [jsonschema.validate],
    and [json.dumps(_, indent=2)], which is total on JSON values. *)
Class Libraries : Type := {
  client_state : Type;
  client_publish :
    client_state → string → string → Z → outcome Z * client_state;
  jsonschema_validate : json → json → validation;
  json_dumps : json → string
}.

(** An entry of [PUMPS] (or [TANKS]); only [id] and [name] are read by
    the loop. *)
Record pump : Type := mkPump { pump_id : Z; pump_name : string }.

(** The module-level settings: [MQTT_QOS] and the topic prefix from the
    environment, the asset list, and the two tables of payload
    generators.  A generator draws random values; it is taken as given.
    A value generator returns a list of
    [(topic_suffix, value_payload, value_desc)].  The entry for ["value"]
    in [SCHEMA_PAYLOADS] has [None] for a generator. *)
Class Settings : Type := {
  MQTT_QOS : Z;
  MQTT_TOPIC_ENTERPRISE : string;
  MQTT_TOPIC_SITE : string;
  MQTT_TOPIC_AREA : string;
  MQTT_TOPIC_LINE : string;
  MQTT_TOPIC_CELL : string;
  PUMPS : list pump;
  SCHEMA_PAYLOADS :
    list (string * (string * option (pump → gmap string json)));
  VALUE_PAYLOADS :
    list (string *
          (string * (pump → list (string * gmap string json * string))))
}.

Section Publisher.

Context `{Libraries} `{Settings}.

(** The state the functions run in: the module-level [SCHEMAS]
    dictionary, the client object, and the events so far. *)
Record world : Type := mkWorld {
  SCHEMAS : gmap string json;
  client : client_state;
  trace : list event
}.

Definition M (A : Type) : Type := world -> outcome A * world.

#[global] Instance M_ret : MRet M := fun A a w => (Returned a, w).
#[global] Instance M_bind : MBind M := fun A B k m w =>
  match m w with
  | (Returned a, w') => k a w'
  | (Raised e, w') => (Raised e, w')
  end.

Definition raise {A : Type} (e : exn) : M A := fun w => (Raised e, w).

(** [try: body except Exception as e: handler(e)] *)
Definition try_except {A : Type} (body : M A) (handler : exn -> M A) : M A :=
  fun w =>
    match body w with
    | (Returned a, w') => (Returned a, w')
    | (Raised e, w') => handler e w'
    end.

(** The world after some more events, and after a change of the
    client. *)
Definition add_events (w : world) (evs : list event) : world :=
  {| SCHEMAS := SCHEMAS w; client := client w; trace := trace w ++ evs |}.

Definition with_client (w : world) (c : client_state) : world :=
  {| SCHEMAS := SCHEMAS w; client := c; trace := trace w |}.

(** The events that happened between [w] and [w']. *)
Definition new_events (w w' : world) : list event :=
  drop (length (trace w)) (trace w').

Definition emit (ev : event) : M unit := fun w =>
  (Returned tt, add_events w [ev]).

Definition logger (l : level) (r : report) : M unit := emit (Log l r).
Definition print (r : report) : M unit := emit (Stdout r).

Definition read_schemas : M (gmap string json) := fun w =>
  (Returned (SCHEMAS w), w).

(** [client.publish(topic, payload_json, qos=qos)], returning
    [result.rc]. *)
Definition publish_call (topic payload_json : string) (qos : Z) : M Z :=
  fun w =>
    let '(r, c) := client_publish (client w) topic payload_json qos in
    (r, add_events (with_client w c) [Transmit topic payload_json qos]).

(** ** [validate_payload] *)

Definition validate_payload (payload : gmap string json)
    (schema_name : string) (schemas : gmap string json) : M bool :=
  match schemas !! schema_name with
  | None =>
      logger WARNING (NoSchemaFound schema_name);;
      print (NoSchemaFound schema_name);;
      mret true
  | Some schema =>
      match jsonschema_validate (JObj payload) schema with
      | Valid => mret true
      | Invalid e =>
          logger ERROR (SchemaValidationFailed schema_name e);;
          print (SchemaValidationFailedFor schema_name);;
          print (ErrorText (message e));;
          print (match absolute_path e with
                 | [] => ErrorPathRoot
                 | p => ErrorPath p
                 end);;
          (if json_truthy (validator_value e)
           then print (ErrorExpected (validator_value e))
           else mret tt);;
          mret false
      | Failed e => raise e
      end
  end.

(** What [validate_payload] logs and prints for a rejected payload. *)
Definition rejection_events (schema_name : string) (e : ValidationError)
  : list event :=
  [ Log ERROR (SchemaValidationFailed schema_name e);
    Stdout (SchemaValidationFailedFor schema_name);
    Stdout (ErrorText (message e));
    Stdout (match absolute_path e with
            | [] => ErrorPathRoot
            | p => ErrorPath p
            end) ] ++
  (if json_truthy (validator_value e)
   then [Stdout (ErrorExpected (validator_value e))]
   else []).

(** ** [publish_payload] *)

(** What is logged and printed inside [publish_payload] when validation
    rejects. *)
Definition rejected_events (topic n : string) (e : ValidationError)
  : list event :=
  rejection_events n e ++ [Log ERROR (NotPublishing topic)].


(** From [payload_json = json.dumps(payload, indent=2)] to the end. *)
Definition serialize_and_send (topic : string)
    (payload : gmap string json) : M bool :=
  let payload_json := json_dumps (JObj payload) in
  rc ← publish_call topic payload_json MQTT_QOS;
  if Z.eqb rc MQTT_ERR_SUCCESS then
    logger INFO (PublishedTo topic);;
    logger DEBUG (PayloadText payload_json);;
    mret true
  else
    logger ERROR (FailedToPublish topic rc);;
    mret false.

(** The classification step, as a statement run in the world. *)
Definition resolve_schema (topic : string)
    (payload : gmap string json) : M (option string) :=
  mret (classify topic payload).

Definition publish_payload (topic : string)
    (payload : gmap string json) : M bool :=
  schema_name ← resolve_schema topic payload;
  if truthy schema_name then
    schemas ← read_schemas;
    accepted ← validate_payload payload (default "" schema_name) schemas;
    if negb accepted then
      logger ERROR (NotPublishing topic);;
      mret false
    else serialize_and_send topic payload
  else
    print (UnknownSchemaType topic);;
    logger WARNING (UnknownSchemaType topic);;
    serialize_and_send topic payload.

(** ** One cycle of [publish_pump_data] / [publish_tank_data] *)

(** A [for] loop whose body may raise: the first exception ends it. *)
Fixpoint for_each {A : Type} (l : list A) (body : A -> M unit) : M unit :=
  match l with
  | [] => mret tt
  | x :: l' => body x;; for_each l' body
  end.

(** [if publish_payload(client, topic, payload): print(...) else:
    print(...)] *)
Definition publish_and_report (indent : nat) (description topic : string)
    (payload : gmap string json) : M unit :=
  ok ← publish_payload topic payload;
  if ok : bool then print (ItemPublished indent description topic)
  else print (ItemValidationFailed indent description).

(** The innermost loop, over the payloads of one value type. *)
Definition publish_value_payloads (base_topic value_type : string)
    (value_payloads : list (string * gmap string json * string)) : M unit :=
  for_each value_payloads (fun '(topic_suffix, value_payload, value_desc) =>
    let topic := base_topic +:+ "/" +:+ value_type +:+ "/" +:+ topic_suffix in
    publish_and_report 4 value_desc topic value_payload).

(** The body of the loop over [SCHEMA_PAYLOADS.items()], with its
    [try]/[except Exception]. *)
Definition publish_schema_type (p : pump) (base_topic : string)
    (entry : string * (string * option (pump -> gmap string json)))
  : M unit :=
  let '(schema_type, (description, payload_func)) := entry in
  print (PublishingSchema (ascii_upper schema_type));;
  try_except
    (if String.eqb schema_type "value" then
       for_each VALUE_PAYLOADS
         (fun '(value_type, (value_description, value_payload_func)) =>
            print (PublishingValues value_description);;
            publish_value_payloads base_topic value_type
              (value_payload_func p))
     else
       match payload_func with
       | Some f =>
           let payload := f p in
           let topic := base_topic +:+ "/" +:+ schema_type in
           publish_and_report 2 description topic payload
       | None =>
           raise (PyException "TypeError"
                    "'NoneType' object is not callable")
       end)
    (fun e =>
       logger ERROR (ErrorPublishing schema_type e);;
       print (ItemError description e)).

Definition base_topic_of (p : pump) : string :=
  MQTT_TOPIC_ENTERPRISE +:+ "/" +:+ MQTT_TOPIC_SITE +:+ "/" +:+
  MQTT_TOPIC_AREA +:+ "/" +:+ MQTT_TOPIC_LINE +:+ "/" +:+
  MQTT_TOPIC_CELL +:+ "/" +:+ ascii_lower (pump_name p).

(** The body of [for pump in PUMPS:]. *)
Definition publish_for_pump (p : pump) : M unit :=
  print (PublishingFor (pump_name p) (pump_id p));;
  for_each SCHEMA_PAYLOADS (publish_schema_type p (base_topic_of p)).

(** One sweep over all assets and all schema types. *)
Definition publish_cycle : M unit := for_each PUMPS publish_for_pump.

End Publisher.

(** ** Vocabulary of the properties *)

(** [p] occurs in [s]: some text, then [p], then some text. *)
Definition is_substring (p s : string) : Prop :=
  ∃ a b : string, s = a +:+ p +:+ b.

(** The ten schema names. *)
Definition schema_names : list string :=
  ["asset"; "alert"; "state"; "measurement"; "count"; "kpi"; "product";
   "production"; "reading"; "value"].

(** The classifier as the specification describes it: an ordered list of
    predicate/result pairs, evaluated first-match-wins. *)
Fixpoint first_match {A : Type} (rules : list ((A → bool) * string)) (x : A)
  : option string :=
  match rules with
  | [] => None
  | (test, name) :: rules' =>
      if test x then Some name else first_match rules' x
  end.

Definition topic_rules : list ((string → bool) * string) :=
  [ (contains "/edge/", "reading");
    (contains "/reading/", "reading");
    (contains "/measurement/", "measurement");
    (contains "/count/", "count");
    (contains "/kpi/", "kpi");
    (contains "/asset", "asset");
    (contains "/alert", "alert");
    (contains "/state", "state");
    (λ t, contains "/product" t && negb (contains "/production" t), "product");
    (contains "/production", "production");
    (contains "/value", "value") ].

Definition payload_rules : list ((gmap string json → bool) * string) :=
  [ (has_key "assetId", "asset");
    (has_key "alertId", "alert");
    (has_key "stateId", "state");
    (has_key "measurementId", "measurement");
    (has_key "countId", "count");
    (has_key "kpiId", "kpi");
    (has_key "productId", "product");
    (has_key "productionId", "production");
    (has_key "valueId", "value");
    (λ p, has_key "type" p && has_key "value" p && has_key "unit" p,
     "reading") ].

(** The eight rules that are tried before the product rule. *)
Definition rules_before_product : list ((string → bool) * string) :=
  take 8 topic_rules.

(** The nine identifier keys of the fallback chain, and all twelve keys
    it looks for. *)
Definition id_keys : list string :=
  ["assetId"; "alertId"; "stateId"; "measurementId"; "countId"; "kpiId";
   "productId"; "productionId"; "valueId"].

Definition shape_keys : list string :=
  id_keys ++ ["type"; "value"; "unit"].

(** ** Example inputs *)

Definition production_topic : string :=
  "abelara/plant1/utilities/water-system/pump-station/pump-101/production".

Definition asset_production_topic : string :=
  "plant1/asset/product/production".

Definition plain_production_topic : string := "plant1/line/production".

Definition edge_topic : string :=
  "abelara/plant1/utilities/water-system/pump-station/pump-101/edge/flow".

Definition trailing_edge_topic : string := "plant1/line/edge".

Definition telemetry_topic : string := "plant1/line/pump-101/telemetry".

Definition measurement_topic : string :=
  "abelara/plant1/utilities/water-system/pump-station/pump-101/measurement/bearing-temperature".

(** A payload whose only key is [metadata], with every key of interest
    one level down. *)
Definition nested_payload : gmap string json :=
  {[ "metadata" :=
       JObj (list_to_map
               [ ("assetId", JInt 101); ("kpiId", JInt 5);
                 ("type", JStr "temperature"); ("value", JInt 20);
                 ("unit", JStr "C") ]) ]}.

(** A measurement with and without its [unit]. *)
Definition complete_measurement : gmap string json :=
  list_to_map [ ("timestamp", JStr "2025-01-01T00:00:00Z");
                ("value", JInt 65); ("unit", JStr "C") ].

Definition measurement_without_unit : gmap string json :=
  list_to_map [ ("timestamp", JStr "2025-01-01T00:00:00Z");
                ("value", JInt 65) ].

(** A schema that requires [timestamp], [value] and [unit]. *)
Definition measurement_schema : json :=
  JObj {[ "required" := JList [JStr "timestamp"; JStr "value"; JStr "unit"] ]}.

(** A stand-in for [jsonschema.validate] that knows one keyword,
    [required]: the first required property that the instance lacks is
    reported at the root. *)
Fixpoint first_missing (required : list json) (instance : gmap string json)
  : option string :=
  match required with
  | [] => None
  | JStr k :: required' =>
      if has_key k instance then first_missing required' instance else Some k
  | _ :: required' => first_missing required' instance
  end.

Definition required_validate (instance schema : json) : validation :=
  match schema, instance with
  | JObj sm, JObj im =>
      match sm !! "required" with
      | Some (JList required) =>
          match first_missing required im with
          | Some k =>
              Invalid {| message := "'" +:+ k +:+ "' is a required property";
                         absolute_path := [];
                         validator_value := JList required |}
          | None => Valid
          end
      | _ => Valid
      end
  | JObj _, _ => Valid
  | _, _ => Failed (PyException "SchemaError" "not a schema document")
  end.

(** The error that the stand-in validator reports for a measurement
    without [unit]. *)
Definition unit_required : ValidationError :=
  {| message := "'unit' is a required property";
     absolute_path := [];
     validator_value := JList [JStr "timestamp"; JStr "value"; JStr "unit"] |}.

(** A stand-in for the client: its state is whether it is connected;
    wildcards in the topic raise, a disconnected client answers
    [MQTT_ERR_NO_CONN]. *)
Definition connection_publish (connected : bool)
    (topic payload_json : string) (qos : Z) : outcome Z * bool :=
  if contains "#" topic || contains "+" topic
  then (Raised (PyException "ValueError"
                  "Publish topic cannot contain wildcards."), connected)
  else if connected then (Returned 0%Z, connected)
  else (Returned 4%Z, connected).

Definition example_libraries : Libraries :=
  {| client_state := bool;
     client_publish := connection_publish;
     jsonschema_validate := required_validate;
     json_dumps := λ _, "{...}" |}.

Definition example_settings : Settings :=
  {| MQTT_QOS := 1;
     MQTT_TOPIC_ENTERPRISE := "abelara";
     MQTT_TOPIC_SITE := "plant1";
     MQTT_TOPIC_AREA := "utilities";
     MQTT_TOPIC_LINE := "water-system";
     MQTT_TOPIC_CELL := "pump-station";
     PUMPS := [mkPump 101 "Pump-101"; mkPump 102 "Pump-102"];
     SCHEMA_PAYLOADS :=
       [ ("asset", ("Asset configuration",
                    Some (λ p, {[ "id" := JInt (pump_id p) ]})));
         ("value", ("Value data", None)) ];
     VALUE_PAYLOADS :=
       [ ("measurement",
          ("Precision maintenance",
           λ _, [ ("bearing-temperature", measurement_without_unit,
                   "Bearing temperature");
                  ("vibration", complete_measurement, "Vibration") ])) ] |}.

(** A connected client, the measurement schema loaded, nothing logged. *)
Definition loaded_world : @world example_libraries :=
  @mkWorld example_libraries {[ "measurement" := measurement_schema ]} true [].

(** The same with no schema loaded at all. *)
Definition bare_world : @world example_libraries :=
  @mkWorld example_libraries ∅ true [].

(** ** Start-up: [load_schemas] *)

(** The schema store as the script sees it: the directory of the script
    ([os.path.dirname(__file__)]) and what [open] followed by [json.load]
    gives for a path, a document or an exception. *)
Class SchemaStore : Type := {
  script_dir : string;
  read_json : string → outcome json
}.

(** The two texts [load_schemas] logs. *)
Inductive load_report : Type :=
  | SchemaLoaded (schema_name : string)
  | SchemaNotLoaded (schema_name : string) (e : exn).

Definition load_report_name (r : load_report) : string :=
  match r with
  | SchemaLoaded n => n
  | SchemaNotLoaded n _ => n
  end.

(** [s.endswith('/')] and [s.startswith('/')]. *)
Fixpoint ends_with_slash (s : string) : bool :=
  match s with
  | EmptyString => false
  | String c EmptyString => Ascii.eqb c "/"
  | String _ s' => ends_with_slash s'
  end.

Definition starts_with_slash (s : string) : bool :=
  match s with
  | String c _ => Ascii.eqb c "/"
  | EmptyString => false
  end.

(** One step of [os.path.join] on a POSIX system. *)
Definition posixpath_join (path b : string) : string :=
  if starts_with_slash b then b
  else if String.eqb path "" || ends_with_slash path then path +:+ b
  else path +:+ "/" +:+ b.

(** The [schema_files] dictionary, in its insertion order. *)
Definition schema_files : list (string * string) :=
  [ ("asset", "asset/asset.json");
    ("alert", "alert/alert.json");
    ("state", "state/state.json");
    ("measurement", "measurement/measurement.json");
    ("count", "count/count.json");
    ("kpi", "kpi/kpi.json");
    ("product", "product/product.json");
    ("production", "production/production.json");
    ("reading", "reading/reading.json");
    ("value", "value/value.json") ].

Section Startup.

Context `{SchemaStore}.

(** [os.path.join(os.path.dirname(__file__), '..', 'schemas')] *)
Definition schema_dir : string :=
  posixpath_join (posixpath_join script_dir "..") "schemas".

(** The body of the loop over [schema_files.items()], on the dictionary
    built so far and the log so far. *)
Definition load_one (acc : gmap string json * list (level * load_report))
    (entry : string * string) : gmap string json * list (level * load_report) :=
  let '(schemas, log) := acc in
  let '(schema_name, schema_path) := entry in
  let full_path := posixpath_join schema_dir schema_path in
  match read_json full_path with
  | Returned doc =>
      (<[schema_name := doc]> schemas,
       log ++ [(DEBUG, SchemaLoaded schema_name)])
  | Raised e => (schemas, log ++ [(WARNING, SchemaNotLoaded schema_name e)])
  end.

(** [load_schemas()]: the dictionary it returns and what it logged. *)
Definition load_schemas : gmap string json * list (level * load_report) :=
  fold_left load_one schema_files (∅, []).

(** What one entry of [schema_files] contributes to the log. *)
Definition load_log_entry (entry : string * string) : level * load_report :=
  match read_json (posixpath_join schema_dir entry.2) with
  | Returned _ => (DEBUG, SchemaLoaded entry.1)
  | Raised e => (WARNING, SchemaNotLoaded entry.1 e)
  end.

End Startup.


(** A store in which only the measurement schema can be read. *)
Definition measurement_only_store : SchemaStore :=
  {| script_dir := "examples";
     read_json := λ path,
       if String.eqb path "examples/../schemas/measurement/measurement.json"
       then Returned measurement_schema
       else Raised (PyException "FileNotFoundError" path) |}.

(** ** Vocabulary of the properties of the loop *)

(** [w'] comes after [w]: the same registry, and the events of [w]
    followed by some more. *)
Definition extends `{Libraries} (w w' : world) : Prop :=
  SCHEMAS w' = SCHEMAS w ∧ ∃ evs, trace w' = trace w ++ evs.


(** A world whose measurement schema is not a schema document. *)
Definition broken_world : @world example_libraries :=
  @mkWorld example_libraries {[ "measurement" := JNull ]} true [].

(** A disconnected client with the measurement schema loaded. *)
Definition offline_world : @world example_libraries :=
  @mkWorld example_libraries {[ "measurement" := measurement_schema ]} false [].



(** ** Vocabulary of path segments *)

(** ["/".join(segs)]: the topic made of these path segments. *)
Fixpoint join_segments (segs : list string) : string :=
  match segs with
  | [] => ""
  | [s] => s
  | s :: rest => s +:+ "/" +:+ join_segments rest
  end.

(** No ['/'] in [s]: [s] is a single path segment. *)
Fixpoint slash_free (s : string) : bool :=
  match s with
  | EmptyString => true
  | String c s' => negb (Ascii.eqb c "/") && slash_free s'
  end.

(** The segments that are neither the first nor the last. *)
Definition inner_segments (segs : list string) : list string :=
  removelast (tail segs).






(** ** Vocabulary of the sweep-wide gate *)

Section GateVocabulary.

Context `{Libraries} `{Settings}.

(** The gate let [payload] through under [topic]: no schema name was
    resolved, or the resolved schema is not loaded, or the validator
    accepted the payload against the loaded document. *)
Definition passes_gate (schemas : gmap string json) (topic : string)
    (payload : gmap string json) : Prop :=
  match classify topic payload with
  | None => True
  | Some n =>
      match schemas !! n with
      | None => True
      | Some schema => jsonschema_validate (JObj payload) schema = Valid
      end
  end.

(** An event that is in order: anything but a transmission, or the
    transmission, at [MQTT_QOS], of the serialization of a payload that
    the gate let through. *)
Definition gated_event (schemas : gmap string json) (ev : event) : Prop :=
  match ev with
  | Transmit topic payload_json qos =>
      qos = MQTT_QOS ∧
      ∃ payload, payload_json = json_dumps (JObj payload) ∧
                 passes_gate schemas topic payload
  | _ => True
  end.

(** [w'] comes after [w] and every event in between is in order. *)
Definition gated (w w' : world) : Prop :=
  SCHEMAS w' = SCHEMAS w ∧
  ∃ evs, trace w' = trace w ++ evs ∧ Forall (gated_event (SCHEMAS w)) evs.

End GateVocabulary.

(** ** The publisher: [publish_pump_data] / [publish_tank_data] *)

(** The connection settings from the environment and the rest of the
    client object: [mqtt.Client()], [username_pw_set], [tls_set] and
    [connect], which may raise, [loop_start], [loop_stop] and
    [disconnect]. *)
Class Session `{Libraries} : Type := {
  BROKER_ADDRESS : string;
  BROKER_PORT : Z;
  MQTT_KEEPALIVE : Z;
  USERNAME : string;
  PASSWORD : string;
  MQTT_USE_TLS : bool;
  PUBLISH_INTERVAL : Z;
  mqtt_Client : client_state;
  username_pw_set : client_state → string → string → client_state;
  tls_set : client_state → outcome unit * client_state;
  client_connect : client_state → string → Z → Z → outcome unit * client_state;
  loop_start : client_state → client_state;
  loop_stop : client_state → client_state;
  client_disconnect : client_state → client_state
}.

(** Truthiness of a [str]. *)
Definition str_truthy (s : string) : bool := negb (String.eqb s "").

(** [time.sleep(seconds)]: a negative length raises [ValueError]. *)
Definition sleep (seconds : Z) : outcome unit :=
  if (seconds <? 0)%Z
  then Raised (PyException "ValueError" "sleep length must be non-negative")
  else Returned tt.

(** What the publisher does around the sweeps, in order.  [Swept] holds
    the events of one sweep. *)
Inductive session_event : Type :=
  | ClientCreated
  | CredentialsSet (username password : string)
  | TlsEnabled
  | Connecting (host : string) (port keepalive : Z)
  | LoopStarted
  | Slept (seconds : Z)
  | CycleStarted (cycle : nat)
  | Swept (evs : list event)
  | Waiting (seconds : Z)
  | ConnectionFailed (e : exn)
  | LoopStopped
  | Disconnected
  | Goodbye.

(** Where the publisher is: still in its [while True] loop, returned, or
    left by an exception that nothing caught. *)
Inductive session_status : Type :=
  | Looping
  | Done
  | Escaped (e : exn).

Section PublisherSession.

Context `{Session} `{Settings}.

(** The statements before [try]: the client is created and configured. *)
Definition configure_client
  : outcome unit * client_state * list session_event :=
  let c0 := mqtt_Client in
  let '(c1, log1) :=
    if str_truthy USERNAME && str_truthy PASSWORD
    then (username_pw_set c0 USERNAME PASSWORD,
          [ClientCreated; CredentialsSet USERNAME PASSWORD])
    else (c0, [ClientCreated]) in
  if MQTT_USE_TLS then
    match tls_set c1 with
    | (Returned _, c2) => (Returned tt, c2, log1 ++ [TlsEnabled])
    | (Raised e, c2) => (Raised e, c2, log1)
    end
  else (Returned tt, c1, log1).

(** The first [k] iterations of [while True], from iteration number
    [cycle + 1] on.  [Returned] means that all [k] completed and the loop
    goes on. *)
Fixpoint run_cycles (k cycle : nat) (w : world) (log : list session_event)
  : outcome unit * world * list session_event :=
  match k with
  | O => (Returned tt, w, log)
  | S k' =>
      let '(r, w1) := publish_cycle w in
      let log1 := log ++ [CycleStarted (S cycle); Swept (new_events w w1)] in
      match r with
      | Raised e => (Raised e, w1, log1)
      | Returned _ =>
          match sleep PUBLISH_INTERVAL with
          | Raised e => (Raised e, w1, log1 ++ [Waiting PUBLISH_INTERVAL])
          | Returned _ =>
              run_cycles k' (S cycle) w1
                (log1 ++ [Waiting PUBLISH_INTERVAL; Slept PUBLISH_INTERVAL])
          end
      end
  end.

(** The [finally] block. *)
Definition finally_disconnect (w : world) (log : list session_event)
  : session_status * world * list session_event :=
  (Done,
   with_client w (client_disconnect (loop_stop (client w))),
   log ++ [LoopStopped; Disconnected; Goodbye]).

(** [except Exception as e], then [finally]. *)
Definition on_exception (e : exn) (w : world) (log : list session_event)
  : session_status * world * list session_event :=
  finally_disconnect w (log ++ [ConnectionFailed e]).

(** The publisher, followed for [k] iterations of its loop. *)
Definition publish_pump_data (k : nat) (w : world)
  : session_status * world * list session_event :=
  match configure_client with
  | (Raised e, c, log) => (Escaped e, with_client w c, log)
  | (Returned _, c, log) =>
      let log1 :=
        log ++ [Connecting BROKER_ADDRESS BROKER_PORT MQTT_KEEPALIVE] in
      match client_connect c BROKER_ADDRESS BROKER_PORT MQTT_KEEPALIVE with
      | (Raised e, c1) => on_exception e (with_client w c1) log1
      | (Returned _, c1) =>
          let w1 := with_client w (loop_start c1) in
          match sleep 2 with
          | Raised e => on_exception e w1 (log1 ++ [LoopStarted])
          | Returned _ =>
              match run_cycles k 0 w1 (log1 ++ [LoopStarted; Slept 2]) with
              | (Returned _, w2, log2) => (Looping, w2, log2)
              | (Raised e, w2, log2) => on_exception e w2 log2
              end
          end
      end
  end.


End PublisherSession.

(** A stand-in for the rest of the client: connecting to an empty host
    raises, otherwise the client becomes connected. *)
Definition example_session (host : string) (interval : Z)
  : @Session example_libraries :=
  {| BROKER_ADDRESS := host;
     BROKER_PORT := 1883;
     MQTT_KEEPALIVE := 60;
     USERNAME := "";
     PASSWORD := "";
     MQTT_USE_TLS := false;
     PUBLISH_INTERVAL := interval;
     mqtt_Client := false : @client_state example_libraries;
     username_pw_set := λ c _ _, c;
     tls_set := λ c, (Returned tt, c);
     client_connect := λ c h _ _,
       if String.eqb h ""
       then (Raised (PyException "ValueError" "Invalid host."), c)
       else (Returned tt, true : @client_state example_libraries);
     loop_start := λ c, c;
     loop_stop := λ c, c;
     client_disconnect := λ _, false : @client_state example_libraries |}.

(** ** Payload generators of the pump script *)

(** An entry of [PUMPS] with all its keys. *)
Record asset : Type := mkAsset {
  asset_id : Z;
  asset_name : string;
  asset_description : string;
  asset_parent_id : Z;
  asset_parent_name : string
}.

(** [str(n)] for an [int], as an f-string formats it. *)
Definition str_of_int (z : Z) : string :=
  NilZero.string_of_int (Z.to_int z).

(** A dict literal. *)
Definition dict (fields : list (string * json)) : gmap string json :=
  list_to_map fields.

(** The float literal [0.05]. *)
Definition float_0_05 : spec_float :=
  S754_finite false 7205759403792794 (-57).

(** [create_asset_payload(pump)]; [timestamp] is what [get_timestamp()]
    returns. *)
Definition create_asset_payload (pump : asset) (timestamp : string)
  : gmap string json :=
  dict
    [ ("timestamp", JStr timestamp);
      ("id", JInt (asset_id pump));
      ("name", JStr (asset_name pump));
      ("description", JStr (asset_description pump));
      ("assetType",
       JObj (dict [ ("id", JInt 1);
                    ("name", JStr "Centrifugal Pump");
                    ("description", JStr "Centrifugal pump equipment") ]));
      ("parentAsset",
       JObj (dict [ ("id", JInt (asset_parent_id pump));
                    ("name", JStr (asset_parent_name pump));
                    ("description", JStr "Primary water pump station") ]));
      ("metadata",
       JObj (dict
         [ ("source", JStr "asset-management");
           ("uri", JStr ("asset://" +:+ str_of_int (asset_id pump)));
           ("additionalInfo",
            JObj (dict
              [ ("manufacturer", JStr "Grundfos");
                ("model", JStr "CR45-4");
                ("serialNumber",
                 JStr ("GF-2023-00" +:+ str_of_int (asset_id pump)));
                ("installationDate", JStr "2023-03-15");
                ("powerRating", JStr "5.5 kW");
                ("maxFlow", JStr "45 m³/h");
                ("maxPressure", JStr "10 bar");
                ("impellerDiameter", JStr "165 mm") ])) ])) ].

(** [create_product_payload(pump)]. *)
Definition create_product_payload (pump : asset) (timestamp : string)
  : gmap string json :=
  dict
    [ ("timestamp", JStr timestamp);
      ("id", JInt 1);
      ("name", JStr "Cooling Water");
      ("description",
       JStr "Process cooling water for heat exchange systems");
      ("idealCycleTime", JInt 3600);
      ("tolerance", JFloat float_0_05);
      ("unit", JStr "m³/h");
      ("family",
       JObj (dict [ ("id", JInt 1);
                    ("name", JStr "Utilities");
                    ("description", JStr "Utility products and services") ]));
      ("metadata",
       JObj (dict
         [ ("source", JStr "product-management");
           ("uri", JStr "product://cooling-water");
           ("asset",
            JObj (dict [ ("id", JInt (asset_id pump));
                         ("name", JStr (asset_name pump));
                         ("description", JStr (asset_description pump)) ]));
           ("additionalInfo",
            JObj (dict
              [ ("specifications",
                 JObj (dict [ ("temperature", JStr "15-25°C");
                              ("pressure", JStr "3-8 bar");
                              ("quality", JStr "Process Grade");
                              ("chlorinated", JBool true) ]));
                ("regulatoryCompliance",
                 JList [JStr "ISO 14001";
                        JStr "Water Quality Standards"]) ])) ])) ].

(** An entry of the [states] list. *)
Record state_entry : Type := mkState {
  state_id : Z;
  state_name : string;
  state_description : string;
  state_color : string
}.

Definition pump_states : list state_entry :=
  [ mkState 1 "Running" "Equipment is operating normally" "#00FF00";
    mkState 2 "Starting" "Equipment startup sequence" "#FFFF00";
    mkState 3 "Stopping" "Equipment shutdown sequence" "#FFA500";
    mkState 4 "Fault" "Equipment fault condition" "#FF0000";
    mkState 5 "Maintenance" "Equipment under maintenance" "#800080" ].

(** [random.choice(seq)]: the element at some index below [len(seq)],
    given by the draw; [None] is the [IndexError] on an empty sequence. *)
Definition random_choice {A : Type} (seq : list A) (draw : nat) : option A :=
  seq !! (draw mod length seq)%nat.

(** [random.randint(a, b)]: some integer from [a] to [b]. *)
Definition randint (a b : Z) (draw : nat) : Z :=
  (a + Z.of_nat draw mod (b - a + 1))%Z.

(** What [create_state_payload] takes from the clock and from [random]. *)
Record state_draws : Type := mkStateDraws {
  state_timestamp : string;
  startup_time : string;
  current_draw : nat;
  previous_draw : nat;
  run_time_draw : nat;
  mode_draw : nat;
  operator_draw : nat
}.

(** [create_state_payload(pump)]. *)
Definition create_state_payload (pump : asset) (d : state_draws)
  : option (gmap string json) :=
  current_state ← random_choice pump_states (current_draw d);
  previous_state ←
    random_choice
      (filter (λ s, state_id s ≠ state_id current_state) pump_states)
      (previous_draw d);
  mode ← random_choice ["AUTO"; "MANUAL"] (mode_draw d);
  operator ←
    random_choice ["John Smith"; "Jane Doe"; "Bob Wilson"] (operator_draw d);
  Some (dict
    [ ("timestamp", JStr (state_timestamp d));
      ("description",
       JStr ("Pump is " +:+ ascii_lower (state_name current_state)));
      ("color", JStr (state_color current_state));
      ("type",
       JObj (dict [ ("id", JInt (state_id current_state));
                    ("name", JStr (state_name current_state));
                    ("description",
                     JStr (state_description current_state)) ]));
      ("metadata",
       JObj (dict
         [ ("source", JStr "plc-controller");
           ("uri", JStr "opc://plc1/DB1.DBW0");
           ("asset",
            JObj (dict [ ("id", JInt (asset_id pump));
                         ("name", JStr (asset_name pump));
                         ("description", JStr (asset_description pump)) ]));
           ("previousState",
            JObj (dict
              [ ("id", JInt (state_id previous_state));
                ("name", JStr (state_name previous_state));
                ("description", JStr (state_description previous_state));
                ("color", JStr (state_color previous_state));
                ("type",
                 JObj (dict
                   [ ("id", JInt (state_id previous_state));
                     ("name", JStr (state_name previous_state));
                     ("description",
                      JStr (state_description previous_state)) ])) ]));
           ("additionalInfo",
            JObj (dict
              [ ("runTime", JInt (randint 1000 5000 (run_time_draw d)));
                ("startupTime", JStr (startup_time d));
                ("mode", JStr mode);
                ("operator", JStr operator) ])) ])) ]).

(** The value found by following keys into nested objects. *)
Fixpoint json_get (path : list string) (v : json) : option json :=
  match path with
  | [] => Some v
  | k :: path' =>
      match v with
      | JObj m => m !! k ≫= json_get path'
      | _ => None
      end
  end.

(** The first entry of [PUMPS]. *)
Definition pump_101_entry : asset :=
  mkAsset 101 "Pump-101" "Centrifugal water pump for cooling system"
    22 "Pump Station 1".

Definition example_state_draws : state_draws :=
  mkStateDraws "2025-01-01T00:00:00+00:00" "2025-01-01T00:00:00+00:00"
    7 9 1234 3 5.

(** * Properties *)

(** ** Substrings *)

Lemma string_app_nil (s : string) : "" +:+ s = s.
Proof. reflexivity. Qed.

Lemma string_app_cons (c : ascii) (a s : string) :
  String c a +:+ s = String c (a +:+ s).
Proof. reflexivity. Qed.

Lemma prefix_split (p s : string) :
  String.prefix p s = true ↔ ∃ b, s = p +:+ b.
Proof.
  revert s. induction p as [|c p IH]; intros s.
  - destruct s; simpl; (split; [intros _; eexists; reflexivity | done]).
  - destruct s as [|d s]; simpl.
    + split; [done | intros [b Hb]; discriminate Hb].
    + destruct (Ascii.ascii_dec c d) as [->|Hne].
      * rewrite IH. split; intros [b Hb]; exists b.
        -- by rewrite string_app_cons, <- Hb.
        -- rewrite string_app_cons in Hb. congruence.
      * split; [done |]. intros [b Hb].
        rewrite string_app_cons in Hb. congruence.
Qed.

Lemma contains_unfold (p s : string) :
  contains p s =
    if String.prefix p s then true
    else match s with
         | EmptyString => false
         | String _ s' => contains p s'
         end.
Proof. by destruct s. Qed.

Lemma contains_is_substring (p s : string) :
  contains p s = true ↔ is_substring p s.
Proof.
  split.
  - induction s as [|c s IH]; rewrite contains_unfold.
    + destruct (String.prefix p "") eqn:Hp; [intros _ | done].
      apply prefix_split in Hp as [b Hb]. by exists "", b.
    + destruct (String.prefix p (String c s)) eqn:Hp.
      * intros _. apply prefix_split in Hp as [b Hb]. by exists "", b.
      * intros [a [b ->]]%IH. by exists (String c a), b.
  - intros [a [b ->]]. induction a as [|c a IH]; rewrite contains_unfold.
    + rewrite string_app_nil.
      by replace (String.prefix p (p +:+ b)) with true
        by (symmetry; apply prefix_split; eauto).
    + rewrite string_app_cons.
      by destruct (String.prefix p (String c (a +:+ p +:+ b))).
Qed.

Lemma contains_false_not_substring (p s : string) :
  contains p s = false ↔ ¬ is_substring p s.
Proof.
  rewrite <- contains_is_substring. by destruct (contains p s).
Qed.

Lemma string_app_assoc (a b c : string) : (a +:+ b) +:+ c = a +:+ (b +:+ c).
Proof.
  induction a as [|x a IH]; [done |].
  by rewrite !string_app_cons, IH.
Qed.

(** A longer pattern occurring implies that its own prefix occurs. *)
Lemma is_substring_weaken (p q s : string) :
  is_substring (p +:+ q) s → is_substring p s.
Proof.
  intros [a [b ->]]. exists a, (q +:+ b). f_equal. apply string_app_assoc.
Qed.

Lemma contains_production_product (topic : string) :
  contains "/production" topic = true → contains "/product" topic = true.
Proof.
  rewrite !contains_is_substring.
  apply (is_substring_weaken "/product" "ion").
Qed.

(** ** Facts about the classifier shared by the claims below *)

Ltac case_chain :=
  repeat match goal with
         | |- context [if ?b then _ else _] => destruct b eqn:?; simpl
         end.

Lemma classify_topic_names (topic n : string) :
  classify_topic topic = Some n → n ∈ schema_names.
Proof.
  unfold classify_topic, schema_names. case_chain;
    intros H; first [discriminate H | injection H as <-; set_solver].
Qed.

Lemma classify_payload_names (payload : gmap string json) (n : string) :
  classify_payload payload = Some n → n ∈ schema_names.
Proof.
  unfold classify_payload, schema_names. case_chain;
    intros H; first [discriminate H | injection H as <-; set_solver].
Qed.

Lemma schema_names_truthy (n : string) :
  n ∈ schema_names → truthy (Some n) = true.
Proof.
  unfold schema_names. rewrite !elem_of_cons, elem_of_nil.
  intros H. repeat (destruct H as [-> | H]; [done |]). done.
Qed.

(** When the topic chain assigns nothing, the payload chain decides;
    otherwise the topic's answer stands. *)
Lemma classify_unfold (topic : string) (payload : gmap string json) :
  classify topic payload =
    match classify_topic topic with
    | Some n => Some n
    | None => classify_payload payload
    end.
Proof.
  unfold classify. destruct (classify_topic topic) as [n|] eqn:Ht.
  - apply classify_topic_names, schema_names_truthy in Ht. by rewrite Ht.
  - simpl. by destruct (classify_payload payload).
Qed.

Lemma classify_names (topic : string) (payload : gmap string json) n :
  classify topic payload = Some n → n ∈ schema_names.
Proof.
  rewrite classify_unfold. destruct (classify_topic topic) eqn:Ht.
  - intros [= <-]. by eapply classify_topic_names.
  - apply classify_payload_names.
Qed.

Lemma classify_truthy (topic : string) (payload : gmap string json) :
  truthy (classify topic payload) = true ↔
  is_Some (classify topic payload).
Proof.
  destruct (classify topic payload) as [n|] eqn:Hc; simpl.
  - apply classify_names, schema_names_truthy in Hc.
    simpl in Hc. rewrite Hc. split; eauto.
  - split; [done | by intros [? ?]].
Qed.

(** ** The dispatch tables of the design notes *)

Lemma classify_topic_first_match (topic : string) :
  classify_topic topic = first_match topic_rules topic.
Proof. unfold classify_topic, topic_rules. simpl. by case_chain. Qed.

Lemma classify_payload_first_match (payload : gmap string json) :
  classify_payload payload = first_match payload_rules payload.
Proof. unfold classify_payload, payload_rules. simpl. by case_chain. Qed.

Lemma rules_before_product_none (topic : string) :
  first_match rules_before_product topic = None →
  classify_topic topic =
    if contains "/product" topic && negb (contains "/production" topic)
    then Some "product"
    else if contains "/production" topic then Some "production"
    else if contains "/value" topic then Some "value"
    else None.
Proof.
  unfold rules_before_product, topic_rules, classify_topic. simpl.
  by case_chain.
Qed.

(** ** Topic rules: order, product and production *)

(** C2, as the code has it.  The topic chain is the ordered table
    [topic_rules] evaluated first-match-wins, each rule testing the topic
    for its slash-anchored keyword.  A topic that contains [/production]
    (and so [/product]) is never classified [product], by the topic or by
    the payload, and it is classified [production] whenever none of the
    eight rules that precede the product rule matches. *)
Theorem topic_rules_ordered (topic : string) :
  classify_topic topic = first_match topic_rules topic ∧
  (contains "/product" topic = true →
   contains "/production" topic = true →
   classify_topic topic ≠ Some "product" ∧
   (∀ payload, classify topic payload ≠ Some "product") ∧
   (first_match rules_before_product topic = None →
    ∀ payload, classify topic payload = Some "production")).
Proof.
  split; [apply classify_topic_first_match |].
  intros Hp Hpn.
  assert (Hne : classify_topic topic ≠ Some "product").
  { unfold classify_topic. rewrite Hp, Hpn. simpl. by case_chain. }
  assert (Hsome : is_Some (classify_topic topic)).
  { unfold classify_topic. rewrite Hp, Hpn. simpl. case_chain; eauto. }
  split; [done |]. split.
  - intros payload. rewrite classify_unfold.
    destruct Hsome as [n Hn]. rewrite Hn. congruence.
  - intros Hnone payload. rewrite classify_unfold.
    rewrite (rules_before_product_none _ Hnone), Hp, Hpn. done.
Qed.

Lemma topic_rules_ordered_witness :
  contains "/product" production_topic = true ∧
  contains "/production" production_topic = true ∧
  first_match rules_before_product production_topic = None ∧
  classify production_topic ∅ = Some "production".
Proof.
  assert (Hp : contains "/product" production_topic = true)
    by (vm_compute; reflexivity).
  assert (Hpn : contains "/production" production_topic = true)
    by (vm_compute; reflexivity).
  assert (Hb : first_match rules_before_product production_topic = None)
    by (vm_compute; reflexivity).
  split; [exact Hp |]. split; [exact Hpn |]. split; [exact Hb |].
  destruct (topic_rules_ordered production_topic) as [_ H].
  destruct (H Hp Hpn) as (_ & _ & Hprod).
  exact (Hprod Hb ∅).
Defined.

(** C2 as worded fails: this topic contains both keywords, as segments
    and as the code's patterns, and it is classified [asset]. *)
Lemma asset_rule_precedes_production :
  contains "product" asset_production_topic = true ∧
  contains "production" asset_production_topic = true ∧
  contains "/product" asset_production_topic = true ∧
  contains "/production" asset_production_topic = true ∧
  classify_topic asset_production_topic = Some "asset" ∧
  classify asset_production_topic ∅ = Some "asset" ∧
  classify asset_production_topic ∅ ≠ Some "production".
Proof. vm_compute. repeat split; discriminate. Qed.

(** ** Edge and reading topics *)

(** C3, as the code has it.  A topic in which [/edge/] or [/reading/]
    occurs is classified [reading], whatever the payload. *)
Theorem edge_reading_topics (topic : string) (payload : gmap string json) :
  contains "/edge/" topic = true ∨ contains "/reading/" topic = true →
  classify topic payload = Some "reading".
Proof.
  intros H. rewrite classify_unfold. unfold classify_topic.
  destruct (contains "/edge/" topic); [done |].
  destruct H as [H | H]; [done |]. by rewrite H.
Qed.

Lemma edge_reading_topics_witness :
  (contains "/edge/" edge_topic = true ∨
   contains "/reading/" edge_topic = true) ∧
  classify edge_topic {[ "assetId" := JInt 7 ]} = Some "reading".
Proof.
  assert (H : contains "/edge/" edge_topic = true ∨
              contains "/reading/" edge_topic = true)
    by (left; vm_compute; reflexivity).
  split; [exact H |].
  exact (edge_reading_topics edge_topic {[ "assetId" := JInt 7 ]} H).
Defined.

(** C3 as worded fails: [edge] occurs in this topic, as its last segment,
    and the result is unknown for one payload and [asset] for another. *)
Lemma trailing_edge_not_reading :
  contains "edge" trailing_edge_topic = true ∧
  classify trailing_edge_topic ∅ = None ∧
  classify trailing_edge_topic {[ "assetId" := JInt 7 ]} = Some "asset".
Proof. vm_compute. repeat split. Qed.

(** ** Payload-shape fallback *)

Lemma has_key_false (k : string) (d : gmap string json) :
  has_key k d = false ↔ d !! k = None.
Proof.
  unfold has_key. rewrite bool_decide_eq_false, <- eq_None_not_Some. done.
Qed.

Lemma has_key_true (k : string) (d : gmap string json) :
  has_key k d = true ↔ is_Some (d !! k).
Proof. unfold has_key. by rewrite bool_decide_eq_true. Qed.

(** C4.  When the topic chain matched nothing, the result is the first
    match of the ordered table [payload_rules]: the nine identifier keys in
    the order [assetId], [alertId], [stateId], [measurementId], [countId],
    [kpiId], [productId], [productionId], [valueId], then the triple
    [type], [value], [unit] for [reading]; it is unknown exactly when no
    identifier key is present and the triple is incomplete. *)
Theorem payload_fallback (topic : string) (payload : gmap string json) :
  classify_topic topic = None →
  classify topic payload = first_match payload_rules payload ∧
  (classify topic payload = None ↔
   (∀ k, k ∈ id_keys → payload !! k = None) ∧
   ¬ (is_Some (payload !! "type") ∧ is_Some (payload !! "value") ∧
      is_Some (payload !! "unit"))).
Proof.
  intros Ht. rewrite classify_unfold, Ht. split.
  - apply classify_payload_first_match.
  - unfold classify_payload, id_keys. split.
    + case_chain; try discriminate. intros _.
      repeat match goal with
             | H : has_key _ _ = false |- _ => apply has_key_false in H
             end.
      split.
      * intros k Hk. rewrite !elem_of_cons, elem_of_nil in Hk.
        repeat (destruct Hk as [-> | Hk]; [assumption |]). done.
      * rewrite <- !has_key_true. intros (H1 & H2 & H3).
        rewrite H1, H2, H3 in *. discriminate.
    + intros [Hid Htriple].
      assert (Hk : ∀ k, k ∈ id_keys → has_key k payload = false)
        by (intros k Hk; apply has_key_false; auto).
      rewrite !Hk by (unfold id_keys; rewrite !elem_of_cons; auto 20).
      rewrite <- !has_key_true in Htriple. simpl.
      destruct (has_key "type" payload), (has_key "value" payload),
        (has_key "unit" payload); simpl; try done.
      exfalso; apply Htriple; done.
Qed.

Lemma payload_fallback_witness :
  classify_topic telemetry_topic = None ∧
  classify telemetry_topic {[ "kpiId" := JInt 3 ]} =
    first_match payload_rules {[ "kpiId" := JInt 3 ]}.
Proof.
  assert (H : classify_topic telemetry_topic = None)
    by (vm_compute; reflexivity).
  split; [exact H |].
  exact (proj1 (payload_fallback telemetry_topic {[ "kpiId" := JInt 3 ]} H)).
Defined.

(** ** Slash-anchored substring matching *)

Ltac substring_facts :=
  repeat match goal with
         | H : contains _ _ = true |- _ => apply contains_is_substring in H
         | H : contains _ _ = false |- _ =>
             apply contains_false_not_substring in H
         | H : (_ && _) = true |- _ => apply andb_true_iff in H as [? ?]
         | H : (_ && _) = false |- _ => apply andb_false_iff in H as [? | ?]
         | H : negb _ = true |- _ => apply negb_true_iff in H
         | H : negb _ = false |- _ => apply negb_false_iff in H
         end.

(** C8, as the code has it.  Each topic rule tests for a slash-anchored
    substring, not for a path segment: [/keyword/] for edge, reading,
    measurement, count and kpi, and [/keyword] for asset, alert, state,
    product, production and value; the product rule requires in addition
    that [/production] does not occur.  A branch is taken exactly when
    no earlier test succeeds and its own does.  So a keyword of the first
    group as last or first segment matches nothing, and a segment that
    merely begins with a keyword of the second group matches. *)
Theorem slash_anchored_matching (topic : string) :
  let has p := is_substring p topic in
  let r := classify_topic topic in
  (r = Some "reading" ↔ has "/edge/" ∨ has "/reading/") ∧
  (r = Some "measurement" ↔
     ¬ has "/edge/" ∧ ¬ has "/reading/" ∧ has "/measurement/") ∧
  (r = Some "count" ↔
     ¬ has "/edge/" ∧ ¬ has "/reading/" ∧ ¬ has "/measurement/" ∧
     has "/count/") ∧
  (r = Some "kpi" ↔
     ¬ has "/edge/" ∧ ¬ has "/reading/" ∧ ¬ has "/measurement/" ∧
     ¬ has "/count/" ∧ has "/kpi/") ∧
  (r = Some "asset" ↔
     ¬ has "/edge/" ∧ ¬ has "/reading/" ∧ ¬ has "/measurement/" ∧
     ¬ has "/count/" ∧ ¬ has "/kpi/" ∧ has "/asset") ∧
  (r = Some "alert" ↔
     ¬ has "/edge/" ∧ ¬ has "/reading/" ∧ ¬ has "/measurement/" ∧
     ¬ has "/count/" ∧ ¬ has "/kpi/" ∧ ¬ has "/asset" ∧ has "/alert") ∧
  (r = Some "state" ↔
     ¬ has "/edge/" ∧ ¬ has "/reading/" ∧ ¬ has "/measurement/" ∧
     ¬ has "/count/" ∧ ¬ has "/kpi/" ∧ ¬ has "/asset" ∧ ¬ has "/alert" ∧
     has "/state") ∧
  (r = Some "product" ↔
     ¬ has "/edge/" ∧ ¬ has "/reading/" ∧ ¬ has "/measurement/" ∧
     ¬ has "/count/" ∧ ¬ has "/kpi/" ∧ ¬ has "/asset" ∧ ¬ has "/alert" ∧
     ¬ has "/state" ∧ has "/product" ∧ ¬ has "/production") ∧
  (r = Some "production" ↔
     ¬ has "/edge/" ∧ ¬ has "/reading/" ∧ ¬ has "/measurement/" ∧
     ¬ has "/count/" ∧ ¬ has "/kpi/" ∧ ¬ has "/asset" ∧ ¬ has "/alert" ∧
     ¬ has "/state" ∧ has "/production") ∧
  (r = Some "value" ↔
     ¬ has "/edge/" ∧ ¬ has "/reading/" ∧ ¬ has "/measurement/" ∧
     ¬ has "/count/" ∧ ¬ has "/kpi/" ∧ ¬ has "/asset" ∧ ¬ has "/alert" ∧
     ¬ has "/state" ∧ ¬ has "/product" ∧ ¬ has "/production" ∧
     has "/value") ∧
  classify_topic "plant1/line/edge" = None ∧
  classify_topic "edge/pump-101/flow" = None ∧
  classify_topic "plant1/line/kpi" = None ∧
  classify_topic "plant1/assets" = Some "asset" ∧
  classify_topic "plant1/state-machine/s1" = Some "state".
Proof.
  intros has r. subst has r.
  repeat match goal with
         | |- _ ∧ classify_topic (String _ _) = _ =>
             split; [| by vm_compute]
         end.
  unfold classify_topic.
  pose proof (is_substring_weaken "/product" "ion" topic) as Hw.
  change ("/product" +:+ "ion") with "/production" in Hw.
  case_chain; substring_facts;
    repeat split; intros; first [congruence | tauto].
Qed.

(** C8 as worded fails for the product rule: [/product] occurs in this
    topic and no earlier rule matches, yet the product branch is not
    taken. *)
Lemma product_rule_needs_no_production :
  contains "/product" plain_production_topic = true ∧
  first_match rules_before_product plain_production_topic = None ∧
  classify_topic plain_production_topic = Some "production" ∧
  classify_topic plain_production_topic ≠ Some "product".
Proof. vm_compute. repeat split; discriminate. Qed.

(** ** Only top-level keys count *)

Lemma has_key_dom (k : string) (p q : gmap string json) :
  dom p = dom q → has_key k p = has_key k q.
Proof.
  intros Hd. unfold has_key. apply bool_decide_ext.
  by rewrite <- !elem_of_dom, Hd.
Qed.

(** C10.  The fallback reads nothing but the set of top-level keys: two
    payloads with the same top-level keys are classified alike, whatever
    their values hold; and a payload with none of the twelve keys at top
    level is unknown to the fallback, whatever is nested inside it. *)
Theorem fallback_top_level_only (topic : string) (p q : gmap string json) :
  dom p = dom q →
  classify_payload p = classify_payload q ∧
  classify topic p = classify topic q ∧
  ((∀ k, k ∈ shape_keys → k ∉ dom p) →
   classify_payload p = None ∧ classify topic p = classify_topic topic).
Proof.
  intros Hd.
  assert (Hpq : classify_payload p = classify_payload q).
  { unfold classify_payload. by rewrite !(has_key_dom _ p q Hd). }
  split; [done |]. split; [by rewrite !classify_unfold, Hpq |].
  intros Hnone.
  assert (Hk : ∀ k, k ∈ shape_keys → has_key k p = false).
  { intros k Hk. apply has_key_false, not_elem_of_dom. auto. }
  assert (Hp : classify_payload p = None).
  { unfold classify_payload.
    rewrite !Hk
      by (unfold shape_keys, id_keys; simpl; rewrite !elem_of_cons; auto 20).
    done. }
  split; [done |]. rewrite classify_unfold, Hp.
  by destruct (classify_topic topic).
Qed.

Lemma fallback_top_level_only_witness :
  dom nested_payload = dom ({[ "metadata" := JNull ]} : gmap string json) ∧
  (∀ k, k ∈ shape_keys → k ∉ dom nested_payload) ∧
  classify_payload nested_payload = classify_payload {[ "metadata" := JNull ]} ∧
  classify telemetry_topic nested_payload =
    classify telemetry_topic {[ "metadata" := JNull ]} ∧
  classify_payload nested_payload = None.
Proof.
  assert (Hd : dom nested_payload =
               dom ({[ "metadata" := JNull ]} : gmap string json)).
  { unfold nested_payload. by rewrite !dom_singleton_L. }
  assert (Hk : ∀ k, k ∈ shape_keys → k ∉ dom nested_payload).
  { intros k Hk. unfold nested_payload.
    rewrite dom_singleton_L, not_elem_of_singleton.
    unfold shape_keys, id_keys in Hk. simpl in Hk.
    rewrite !elem_of_cons, elem_of_nil in Hk.
    repeat (destruct Hk as [-> | Hk]; [discriminate |]). done. }
  split; [exact Hd |]. split; [exact Hk |].
  destruct (fallback_top_level_only telemetry_topic nested_payload
              {[ "metadata" := JNull ]} Hd) as (H1 & H2 & H3).
  split; [exact H1 |]. split; [exact H2 |]. exact (proj1 (H3 Hk)).
Defined.

(** The nested payload of the example is unknown to the classifier. *)
Example nested_payload_unknown :
  classify telemetry_topic nested_payload = None.
Proof. by vm_compute. Qed.


(** ** The pipeline, path by path *)

Section PublisherFacts.

Context `{Libraries} `{Settings}.

Lemma add_events_add_events (w : world) (a b : list event) :
  add_events (add_events w a) b = add_events w (a ++ b).
Proof. unfold add_events. simpl. by rewrite <- (assoc_L (++)). Qed.

Lemma new_events_add_events (w : world) (evs : list event) :
  new_events w (add_events w evs) = evs.
Proof. unfold new_events, add_events. simpl. apply drop_app_length. Qed.

Lemma new_events_sent (w : world) c (a b : list event) :
  new_events w (add_events (with_client (add_events w a) c) b) = a ++ b.
Proof.
  unfold new_events, add_events, with_client. simpl.
  rewrite <- (assoc_L (++)). apply drop_app_length.
Qed.

Lemma add_events_nil (w : world) : add_events w [] = w.
Proof. destruct w. unfold add_events. simpl. by rewrite (right_id_L [] (++)). Qed.

Ltac run_monad :=
  unfold logger, print, emit, mbind, M_bind, mret, M_ret, raise,
    read_schemas; simpl;
  rewrite ?add_events_add_events; simpl.

(** [validate_payload], outcome by outcome. *)
Lemma validate_payload_run (payload : gmap string json) (n : string)
    (schemas : gmap string json) (w : world) :
  validate_payload payload n schemas w =
    match schemas !! n with
    | None =>
        (Returned true,
         add_events w [Log WARNING (NoSchemaFound n);
                       Stdout (NoSchemaFound n)])
    | Some schema =>
        match jsonschema_validate (JObj payload) schema with
        | Valid => (Returned true, w)
        | Invalid e => (Returned false, add_events w (rejection_events n e))
        | Failed ex => (Raised ex, w)
        end
    end.
Proof.
  unfold validate_payload, rejection_events.
  destruct (schemas !! n) as [schema|]; [| by run_monad].
  destruct (jsonschema_validate (JObj payload) schema) as [|e|ex];
    [done | | done].
  run_monad. by destruct (json_truthy (validator_value e)); run_monad.
Qed.

Lemma rejection_events_silent (n : string) (e : ValidationError) :
  Forall (λ ev, is_transmit ev = false) (rejection_events n e).
Proof.
  unfold rejection_events.
  destruct (json_truthy (validator_value e)); simpl; by repeat constructor.
Qed.

(** Validation never touches the client or the registry, and only adds
    events that are not transmissions. *)
Lemma validate_payload_frame (payload : gmap string json) (n : string)
    (schemas : gmap string json) (w : world) :
  ∃ evs, (validate_payload payload n schemas w).2 = add_events w evs ∧
         Forall (λ ev, is_transmit ev = false) evs.
Proof.
  rewrite validate_payload_run.
  destruct (schemas !! n) as [schema|].
  - destruct (jsonschema_validate (JObj payload) schema) as [|e|ex]; simpl.
    + exists []. by rewrite add_events_nil.
    + exists (rejection_events n e). split; [done |].
      apply rejection_events_silent.
    + exists []. by rewrite add_events_nil.
  - eexists. split; [done |]. by repeat constructor.
Qed.

(** From serialization to the end, by what the client answers. *)
Lemma serialize_and_send_run (topic : string) (payload : gmap string json)
    (w : world) :
  serialize_and_send topic payload w =
    let payload_json := json_dumps (JObj payload) in
    let sent := Transmit topic payload_json MQTT_QOS in
    match client_publish (client w) topic payload_json MQTT_QOS with
    | (Returned rc, c) =>
        if Z.eqb rc MQTT_ERR_SUCCESS then
          (Returned true,
           add_events (with_client w c)
             [sent; Log INFO (PublishedTo topic);
              Log DEBUG (PayloadText payload_json)])
        else
          (Returned false,
           add_events (with_client w c)
             [sent; Log ERROR (FailedToPublish topic rc)])
    | (Raised ex, c) => (Raised ex, add_events (with_client w c) [sent])
    end.
Proof.
  unfold serialize_and_send, publish_call. run_monad.
  destruct (client_publish _ _ _ _) as [[rc|ex] c]; [| done].
  by destruct (Z.eqb rc MQTT_ERR_SUCCESS); run_monad.
Qed.

(** [publish_payload], by what classification and validation give. *)
Lemma publish_payload_run (topic : string) (payload : gmap string json)
    (w : world) :
  publish_payload topic payload w =
    match classify topic payload with
    | None =>
        serialize_and_send topic payload
          (add_events w [Stdout (UnknownSchemaType topic);
                         Log WARNING (UnknownSchemaType topic)])
    | Some n =>
        match validate_payload payload n (SCHEMAS w) w with
        | (Returned true, w1) => serialize_and_send topic payload w1
        | (Returned false, w1) =>
            (Returned false, add_events w1 [Log ERROR (NotPublishing topic)])
        | (Raised ex, w1) => (Raised ex, w1)
        end
    end.
Proof.
  unfold publish_payload, resolve_schema.
  pose proof (classify_truthy topic payload) as Ht.
  destruct (classify topic payload) as [n|] eqn:Hc.
  - assert (Htrue : truthy (Some n) = true) by (apply Ht; eauto).
    unfold mbind at 1, M_bind at 1, mret at 1, M_ret at 1.
    rewrite Htrue. unfold mbind at 1, M_bind at 1, read_schemas.
    unfold mbind at 1, M_bind at 1. simpl.
    destruct (validate_payload payload n (SCHEMAS w) w) as [[[|]|ex] w1];
      [done | by run_monad | done].
  - assert (Hfalse : truthy None = false) by done.
    unfold mbind at 1, M_bind at 1, mret at 1, M_ret at 1.
    rewrite Hfalse. by run_monad.
Qed.

Lemma silent_no_transmit (evs : list event) t j q :
  Forall (λ ev, is_transmit ev = false) evs → Transmit t j q ∉ evs.
Proof.
  rewrite Forall_forall. intros Hs Hin. by apply Hs in Hin.
Qed.

(** What [serialize_and_send] returns, and the events it adds. *)
Lemma serialize_and_send_result (topic : string)
    (payload : gmap string json) (w : world) :
  (serialize_and_send topic payload w).1 =
    match (client_publish (client w) topic (json_dumps (JObj payload))
             MQTT_QOS).1 with
    | Returned rc => Returned (Z.eqb rc MQTT_ERR_SUCCESS)
    | Raised ex => Raised ex
    end.
Proof.
  rewrite serialize_and_send_run. simpl.
  destruct (client_publish _ _ _ _) as [[rc|ex] c]; simpl; [| done].
  by destruct (Z.eqb rc MQTT_ERR_SUCCESS).
Qed.

Lemma serialize_and_send_events (topic : string)
    (payload : gmap string json) (w : world) :
  ∃ c tail,
    (serialize_and_send topic payload w).2 =
      add_events (with_client w c)
        (Transmit topic (json_dumps (JObj payload)) MQTT_QOS :: tail) ∧
    Forall (λ ev, is_transmit ev = false) tail.
Proof.
  rewrite serialize_and_send_run. simpl.
  destruct (client_publish _ _ _ _) as [[rc|ex] c]; simpl.
  - destruct (Z.eqb rc MQTT_ERR_SUCCESS); simpl;
      eexists c, _; (split; [reflexivity | by repeat constructor]).
  - exists c, []. by split.
Qed.

(** ** The validation gate in front of the transport *)

(** C1.  If [client.publish] is reached during a call of
    [publish_payload], it is reached with this topic and this payload,
    and either a schema name was resolved and [validate_payload]
    returned [True] for it, or no name was resolved and the two
    warnings came first. *)
Theorem transmit_only_after_gate (w : world) (topic : string)
    (payload : gmap string json) (t j : string) (q : Z) :
  Transmit t j q ∈ new_events w (publish_payload topic payload w).2 →
  (t = topic ∧ j = json_dumps (JObj payload) ∧ q = MQTT_QOS) ∧
  ((∃ n, classify topic payload = Some n ∧
         (validate_payload payload n (SCHEMAS w) w).1 = Returned true) ∨
   (classify topic payload = None ∧
    ∃ rest,
      new_events w (publish_payload topic payload w).2 =
        Stdout (UnknownSchemaType topic) ::
        Log WARNING (UnknownSchemaType topic) ::
        Transmit topic (json_dumps (JObj payload)) MQTT_QOS :: rest)).
Proof.
  rewrite publish_payload_run.
  destruct (classify topic payload) as [n|] eqn:Hc.
  - destruct (validate_payload_frame payload n (SCHEMAS w) w)
      as (evs & Hw & Hsilent).
    destruct (validate_payload payload n (SCHEMAS w) w)
      as [[[|]|ex] w1] eqn:Hv; simpl in Hw; subst w1.
    + destruct (serialize_and_send_events topic payload (add_events w evs))
        as (c & tail & -> & Htail).
      rewrite new_events_sent. intros Hin.
      apply elem_of_app in Hin as [Hin | Hin];
        [by apply silent_no_transmit in Hin |].
      apply elem_of_cons in Hin as [Heq | Hin];
        [| by apply silent_no_transmit in Hin].
      injection Heq as -> -> ->. split; [done |]. left. exists n. by rewrite Hv.
    + simpl. rewrite add_events_add_events, new_events_add_events.
      intros Hin. apply elem_of_app in Hin as [Hin | Hin];
        [by apply silent_no_transmit in Hin |].
      apply list_elem_of_singleton in Hin. discriminate Hin.
    + simpl. rewrite new_events_add_events. intros Hin.
      by apply silent_no_transmit in Hin.
  - destruct (serialize_and_send_events topic payload
                (add_events w [Stdout (UnknownSchemaType topic);
                               Log WARNING (UnknownSchemaType topic)]))
      as (c & tail & -> & Htail).
    rewrite new_events_sent. simpl. intros Hin.
    rewrite !elem_of_cons in Hin.
    destruct Hin as [Hin | [Hin | [Hin | Hin]]]; try discriminate Hin.
    + injection Hin as -> -> ->. split; [done |]. right. eauto.
    + by apply silent_no_transmit in Hin.
Qed.

(** ** A schema that is not loaded *)


(** ** Success is the immediate return code *)

(** C7.  When validation passed or was skipped, [publish_payload]
    returns [True] exactly when [client.publish] answers with
    [MQTT_ERR_SUCCESS]; for any other return code it returns [False],
    and an exception of the client propagates. *)
Theorem delivery_reported_from_rc (w : world) (topic : string)
    (payload : gmap string json) :
  (classify topic payload = None ∨
   ∃ n, classify topic payload = Some n ∧
        (validate_payload payload n (SCHEMAS w) w).1 = Returned true) →
  let answer :=
    (client_publish (client w) topic (json_dumps (JObj payload))
       MQTT_QOS).1 in
  ((publish_payload topic payload w).1 = Returned true ↔
   answer = Returned MQTT_ERR_SUCCESS) ∧
  (∀ rc, answer = Returned rc →
         (publish_payload topic payload w).1 =
           Returned (Z.eqb rc MQTT_ERR_SUCCESS)) ∧
  (∀ ex, answer = Raised ex →
         (publish_payload topic payload w).1 = Raised ex).
Proof.
  intros Hgate answer.
  assert (Hres : (publish_payload topic payload w).1 =
                 match answer with
                 | Returned rc => Returned (Z.eqb rc MQTT_ERR_SUCCESS)
                 | Raised ex => Raised ex
                 end).
  { rewrite publish_payload_run.
    destruct Hgate as [-> | (n & -> & Hv)].
    - by rewrite serialize_and_send_result.
    - destruct (validate_payload_frame payload n (SCHEMAS w) w)
        as (evs & Hw & _).
      destruct (validate_payload payload n (SCHEMAS w) w) as [r w1].
      simpl in Hv, Hw. subst r w1.
      by rewrite serialize_and_send_result. }
  rewrite Hres. clearbody answer. split; [| split].
  - destruct answer as [rc|ex]; [| by split].
    unfold MQTT_ERR_SUCCESS. split.
    + intros [= Heq]. apply Z.eqb_eq in Heq. by subst rc.
    + by intros [= ->].
  - by intros rc ->.
  - by intros ex ->.
Qed.

(** ** The loop around a rejected item *)

Lemma publish_and_report_run (indent : nat) (description topic : string)
    (payload : gmap string json) (w : world) :
  publish_and_report indent description topic payload w =
    match publish_payload topic payload w with
    | (Returned true, w1) =>
        (Returned tt,
         add_events w1 [Stdout (ItemPublished indent description topic)])
    | (Returned false, w1) =>
        (Returned tt,
         add_events w1 [Stdout (ItemValidationFailed indent description)])
    | (Raised ex, w1) => (Raised ex, w1)
    end.
Proof.
  unfold publish_and_report. unfold mbind at 1, M_bind at 1.
  by destruct (publish_payload topic payload w) as [[[|]|ex] w1].
Qed.

Lemma for_each_cons {A : Type} (x : A) (l : list A) (body : A → M unit)
    (w : world) :
  for_each (x :: l) body w =
    match body x w with
    | (Returned _, w1) => for_each l body w1
    | (Raised ex, w1) => (Raised ex, w1)
    end.
Proof. simpl. unfold mbind, M_bind. by destruct (body x w) as [[[]|ex] w1]. Qed.

(** C6.  For a payload that [jsonschema] rejects against its resolved,
    loaded schema, [publish_payload] returns [False], leaves the client
    untouched and adds no transmission; the statement around the call
    prints the failure line and returns normally, so the loop over the
    value payloads and the loop over [SCHEMA_PAYLOADS] both go on with
    the next item. *)
Theorem rejected_item_skipped (w : world) (topic : string)
    (payload : gmap string json) (n : string) (schema : json)
    (e : ValidationError) :
  classify topic payload = Some n →
  SCHEMAS w !! n = Some schema →
  jsonschema_validate (JObj payload) schema = Invalid e →
  let evs := rejected_events topic n e in
  publish_payload topic payload w = (Returned false, add_events w evs) ∧
  Forall (λ ev, is_transmit ev = false) evs ∧
  client (add_events w evs) = client w ∧
  (∀ indent description,
     publish_and_report indent description topic payload w =
       (Returned tt,
        add_events w
          (evs ++ [Stdout (ItemValidationFailed indent description)]))) ∧
  (∀ base_topic value_type topic_suffix value_desc rest,
     topic = base_topic +:+ "/" +:+ value_type +:+ "/" +:+ topic_suffix →
     publish_value_payloads base_topic value_type
       ((topic_suffix, payload, value_desc) :: rest) w =
     publish_value_payloads base_topic value_type rest
       (add_events w
          (evs ++ [Stdout (ItemValidationFailed 4 value_desc)]))) ∧
  (∀ p schema_type description payload_func rest,
     String.eqb schema_type "value" = false →
     payload_func p = payload →
     topic = base_topic_of p +:+ "/" +:+ schema_type →
     for_each ((schema_type, (description, Some payload_func)) :: rest)
       (publish_schema_type p (base_topic_of p)) w =
     for_each rest (publish_schema_type p (base_topic_of p))
       (add_events w
          (Stdout (PublishingSchema (ascii_upper schema_type)) :: evs ++
           [Stdout (ItemValidationFailed 2 description)]))).
Proof.
  intros Hc Hs Hv evs.
  assert (Hp : ∀ w0 : world, SCHEMAS w0 = SCHEMAS w →
               publish_payload topic payload w0
               = (Returned false, add_events w0 evs)).
  { intros w0 Hw0.
    rewrite publish_payload_run, Hc, validate_payload_run, Hw0, Hs, Hv.
    by rewrite add_events_add_events. }
  assert (Hr : ∀ (w0 : world) indent description, SCHEMAS w0 = SCHEMAS w →
               publish_and_report indent description topic payload w0 =
               (Returned tt,
                add_events w0
                  (evs ++ [Stdout (ItemValidationFailed indent description)]))).
  { intros w0 indent description Hw0.
    rewrite publish_and_report_run, (Hp w0 Hw0).
    by rewrite add_events_add_events. }
  split; [by apply Hp |]. split.
  { subst evs. unfold rejected_events. apply Forall_app. split.
    - apply rejection_events_silent.
    - by repeat constructor. }
  split; [done |]. split; [by intros; apply Hr |]. split.
  - intros base_topic value_type topic_suffix value_desc rest Ht.
    unfold publish_value_payloads. rewrite for_each_cons.
    rewrite <- Ht. by rewrite Hr.
  - intros p schema_type description payload_func rest Hne Hf Ht.
    rewrite for_each_cons. unfold publish_schema_type at 1.
    unfold mbind at 1, M_bind at 1, print at 1, emit at 1.
    unfold try_except. rewrite Hne, Hf, <- Ht.
    rewrite Hr by done. by rewrite add_events_add_events.
Qed.

(** ** Classification and the registry *)

(** C9.  The classification step returns the same answer in any two
    worlds, hence under any two registries, the empty one included, and
    it changes nothing.  The registry is read by validation only, and
    only at the resolved name: two calls of [publish_payload] from
    worlds that differ in their registries alone do the same whenever
    the registries agree at that name (always, when no name was
    resolved). *)
Theorem classification_ignores_registry (w1 w2 : world) (topic : string)
    (payload : gmap string json) :
  (resolve_schema topic payload w1).1 = (resolve_schema topic payload w2).1 ∧
  (resolve_schema topic payload w1).2 = w1 ∧
  (resolve_schema topic payload w1).1 =
    (resolve_schema topic payload (mkWorld ∅ (client w1) (trace w1))).1 ∧
  (client w1 = client w2 →
   trace w1 = trace w2 →
   match classify topic payload with
   | Some n => SCHEMAS w1 !! n = SCHEMAS w2 !! n
   | None => True
   end →
   (publish_payload topic payload w1).1 = (publish_payload topic payload w2).1 ∧
   client (publish_payload topic payload w1).2 =
     client (publish_payload topic payload w2).2 ∧
   trace (publish_payload topic payload w1).2 =
     trace (publish_payload topic payload w2).2).
Proof.
  split; [done |]. split; [done |]. split; [done |].
  destruct w1 as [s1 c1 t1], w2 as [s2 c2 t2]. simpl.
  intros <- <- Hreg. rewrite !publish_payload_run.
  destruct (classify topic payload) as [n|].
  - rewrite !validate_payload_run. simpl. rewrite <- Hreg.
    destruct (s1 !! n) as [schema|].
    + destruct (jsonschema_validate (JObj payload) schema) as [|e|ex];
        [| done | done].
      rewrite !serialize_and_send_run. simpl.
      destruct (client_publish _ _ _ _) as [[rc|ex] c]; [| done].
      by destruct (Z.eqb rc MQTT_ERR_SUCCESS).
    + rewrite !serialize_and_send_run. simpl.
      destruct (client_publish _ _ _ _) as [[rc|ex] c]; [| done].
      by destruct (Z.eqb rc MQTT_ERR_SUCCESS).
  - rewrite !serialize_and_send_run. simpl.
    destruct (client_publish _ _ _ _) as [[rc|ex] c]; [| done].
    by destruct (Z.eqb rc MQTT_ERR_SUCCESS).
Qed.

End PublisherFacts.

(** ** The theorems at the example inputs *)

Lemma transmit_only_after_gate_witness :
  Transmit measurement_topic "{...}" 1 ∈
    new_events loaded_world
      (@publish_payload example_libraries example_settings
         measurement_topic complete_measurement loaded_world).2 ∧
  ∃ n, classify measurement_topic complete_measurement = Some n ∧
       (@validate_payload example_libraries complete_measurement n
          (SCHEMAS loaded_world) loaded_world).1 = Returned true.
Proof.
  assert (Hin : Transmit measurement_topic "{...}" 1 ∈
                new_events loaded_world
                  (@publish_payload example_libraries example_settings
                     measurement_topic complete_measurement loaded_world).2)
    by (vm_compute; constructor).
  split; [exact Hin |].
  destruct (@transmit_only_after_gate example_libraries example_settings
              loaded_world measurement_topic complete_measurement
              _ _ _ Hin) as [_ [Hgate | [Hnone _]]].
  - exact Hgate.
  - vm_compute in Hnone. discriminate Hnone.
Defined.


Lemma delivery_reported_from_rc_witness :
  (classify measurement_topic complete_measurement = None ∨
   ∃ n, classify measurement_topic complete_measurement = Some n ∧
        (@validate_payload example_libraries complete_measurement n
           (SCHEMAS loaded_world) loaded_world).1 = Returned true) ∧
  ((@publish_payload example_libraries example_settings
      measurement_topic complete_measurement loaded_world).1 = Returned true ↔
   (connection_publish true measurement_topic "{...}" 1).1 =
     Returned MQTT_ERR_SUCCESS).
Proof.
  assert (Hgate :
    classify measurement_topic complete_measurement = None ∨
    ∃ n, classify measurement_topic complete_measurement = Some n ∧
         (@validate_payload example_libraries complete_measurement n
            (SCHEMAS loaded_world) loaded_world).1 = Returned true).
  { right. exists "measurement". split; vm_compute; reflexivity. }
  split; [exact Hgate |].
  exact (proj1
    (@delivery_reported_from_rc example_libraries example_settings
       loaded_world measurement_topic complete_measurement Hgate)).
Defined.

Lemma rejected_item_skipped_witness :
  classify measurement_topic measurement_without_unit = Some "measurement" ∧
  SCHEMAS loaded_world !! "measurement" = Some measurement_schema ∧
  @jsonschema_validate example_libraries (JObj measurement_without_unit)
    measurement_schema = Invalid unit_required ∧
  @publish_payload example_libraries example_settings
    measurement_topic measurement_without_unit loaded_world =
  (Returned false,
   add_events loaded_world
     (rejected_events measurement_topic "measurement" unit_required)).
Proof.
  assert (Hc : classify measurement_topic measurement_without_unit
               = Some "measurement") by (vm_compute; reflexivity).
  assert (Hs : SCHEMAS loaded_world !! "measurement" = Some measurement_schema)
    by (vm_compute; reflexivity).
  assert (Hv : @jsonschema_validate example_libraries
                 (JObj measurement_without_unit) measurement_schema
               = Invalid unit_required) by (vm_compute; reflexivity).
  split; [exact Hc |]. split; [exact Hs |]. split; [exact Hv |].
  exact (proj1
    (@rejected_item_skipped example_libraries example_settings
       loaded_world measurement_topic measurement_without_unit
       "measurement" measurement_schema unit_required Hc Hs Hv)).
Defined.

Lemma classification_ignores_registry_witness :
  client loaded_world = client bare_world ∧
  trace loaded_world = trace bare_world ∧
  match classify production_topic ∅ with
  | Some n => SCHEMAS loaded_world !! n = SCHEMAS bare_world !! n
  | None => True
  end ∧
  (@publish_payload example_libraries example_settings
     production_topic ∅ loaded_world).1 =
  (@publish_payload example_libraries example_settings
     production_topic ∅ bare_world).1.
Proof.
  assert (Hcl : client loaded_world = client bare_world) by reflexivity.
  assert (Htr : trace loaded_world = trace bare_world) by reflexivity.
  assert (Hreg : match classify production_topic ∅ with
                 | Some n => SCHEMAS loaded_world !! n = SCHEMAS bare_world !! n
                 | None => True
                 end) by (vm_compute; reflexivity).
  split; [exact Hcl |]. split; [exact Htr |]. split; [exact Hreg |].
  destruct (@classification_ignores_registry example_libraries
              example_settings loaded_world bare_world production_topic ∅)
    as (_ & _ & _ & Hsame).
  exact (proj1 (Hsame Hcl Htr Hreg)).
Defined.

(** * Beyond the claims *)

(** ** Start-up: what [load_schemas] returns and logs *)

Section StartupFacts.

Context `{SchemaStore}.

Lemma load_one_fold (entries : list (string * string))
    (schemas : gmap string json) (log : list (level * load_report)) :
  (fold_left load_one entries (schemas, log)).2 =
    log ++ map load_log_entry entries.
Proof.
  revert schemas log. induction entries as [|[n path] entries IH];
    intros schemas log; simpl.
  - by rewrite (right_id_L [] (++)).
  - unfold load_log_entry at 1. simpl.
    destruct (read_json (posixpath_join schema_dir path)) as [doc|e];
      rewrite IH; by rewrite <- (assoc_L (++)).
Qed.

Lemma load_one_fold_other (entries : list (string * string))
    (schemas : gmap string json) (log : list (level * load_report))
    (n : string) :
  n ∉ entries.*1 →
  (fold_left load_one entries (schemas, log)).1 !! n = schemas !! n.
Proof.
  revert schemas log. induction entries as [|[m path] entries IH];
    intros schemas log Hn; simpl; [done |].
  simpl in Hn. apply not_elem_of_cons in Hn as [Hne Hn].
  destruct (read_json (posixpath_join schema_dir path)) as [doc|e];
    rewrite IH by done; [by rewrite lookup_insert_ne | done].
Qed.

Lemma load_one_fold_entry (entries : list (string * string))
    (schemas : gmap string json) (log : list (level * load_report))
    (n path : string) :
  NoDup entries.*1 →
  (n, path) ∈ entries →
  (fold_left load_one entries (schemas, log)).1 !! n =
    match read_json (posixpath_join schema_dir path) with
    | Returned doc => Some doc
    | Raised _ => schemas !! n
    end.
Proof.
  revert schemas log. induction entries as [|[m q] entries IH];
    intros schemas log Hnd Hin; [by apply elem_of_nil in Hin |].
  simpl in Hnd. apply NoDup_cons in Hnd as [Hm Hnd].
  apply elem_of_cons in Hin as [[= <- <-] | Hin]; simpl.
  - destruct (read_json (posixpath_join schema_dir path)) as [doc|e];
      rewrite load_one_fold_other by done; [by rewrite lookup_insert_eq | done].
  - assert (Hne : m ≠ n).
    { intros ->. apply Hm. apply list_elem_of_fmap. by exists (n, path). }
    destruct (read_json (posixpath_join schema_dir q)) as [doc|e];
      rewrite (IH _ _ Hnd Hin);
      destruct (read_json (posixpath_join schema_dir path)); try done.
    by rewrite lookup_insert_ne.
Qed.

Lemma schema_files_names : schema_files.*1 = schema_names.
Proof. reflexivity. Qed.

Lemma schema_files_NoDup : NoDup schema_files.*1.
Proof. apply (bool_decide_unpack _). by vm_compute. Qed.

Lemma load_schemas_entry (n path : string) :
  (n, path) ∈ schema_files →
  load_schemas.1 !! n =
    match read_json (posixpath_join schema_dir path) with
    | Returned doc => Some doc
    | Raised _ => None
    end.
Proof.
  intros Hin. unfold load_schemas.
  rewrite (load_one_fold_entry _ _ _ n path schema_files_NoDup Hin).
  by destruct (read_json _).
Qed.

(** X1.  The dictionary [load_schemas] returns has no key outside the ten
    schema names, and for each of the ten it holds the parsed document
    exactly when reading [schema_dir/<name>/<name>.json] succeeded: a file
    that cannot be read or parsed leaves its name absent. *)
Theorem load_schemas_registry (n : string) :
  (n ∉ schema_names → load_schemas.1 !! n = None) ∧
  (∀ path, (n, path) ∈ schema_files →
     load_schemas.1 !! n =
       match read_json (posixpath_join schema_dir path) with
       | Returned doc => Some doc
       | Raised _ => None
       end).
Proof.
  split.
  - intros Hn. unfold load_schemas.
    rewrite load_one_fold_other by (by rewrite schema_files_names).
    apply lookup_empty.
  - intros path Hin. unfold load_schemas.
    rewrite (load_one_fold_entry _ _ _ n path schema_files_NoDup Hin).
    by destruct (read_json _).
Qed.

(** X2.  [load_schemas] logs exactly one line per schema, in the order of
    the table: a debug line for a schema it loaded, a warning with the
    exception for one it could not load.  So a schema name that is absent
    from the dictionary has a warning that names it. *)
Theorem load_schemas_reports :
  load_schemas.2 = map load_log_entry schema_files ∧
  map (λ r, load_report_name r.2) load_schemas.2 = schema_names ∧
  (∀ n, n ∈ schema_names → load_schemas.1 !! n = None →
        ∃ e, (WARNING, SchemaNotLoaded n e) ∈ load_schemas.2).
Proof.
  assert (Hlog : load_schemas.2 = map load_log_entry schema_files)
    by (unfold load_schemas; by rewrite load_one_fold).
  split; [done |]. split.
  - rewrite Hlog, map_map, <- schema_files_names.
    apply map_ext. intros [n path]. unfold load_log_entry. simpl.
    by destruct (read_json _).
  - intros n Hn Hnone. rewrite <- schema_files_names in Hn.
    apply list_elem_of_fmap in Hn as ([m path] & -> & Hin). simpl in Hnone.
    pose proof (load_schemas_entry m path Hin) as Hl.
    rewrite Hnone in Hl.
    destruct (read_json (posixpath_join schema_dir path)) as [doc|e] eqn:Hr;
      [discriminate Hl |].
    exists e. rewrite Hlog. apply list_elem_of_fmap.
    exists (m, path). split; [| done].
    unfold load_log_entry. simpl. by rewrite Hr.
Qed.

End StartupFacts.

(** ** One sweep: what escapes it and what it leaves alone *)

Section CycleFacts.

Context `{Libraries} `{Settings}.

Ltac run_steps :=
  unfold logger, print, emit, mbind, M_bind, mret, M_ret, raise,
    read_schemas; simpl;
  rewrite ?add_events_add_events; simpl.

Lemma extends_refl (w : world) : extends w w.
Proof. split; [done |]. exists []. by rewrite (right_id_L [] (++)). Qed.

Lemma extends_trans (w1 w2 w3 : world) :
  extends w1 w2 → extends w2 w3 → extends w1 w3.
Proof.
  intros [Hs1 [e1 Ht1]] [Hs2 [e2 Ht2]]. split; [congruence |].
  exists (e1 ++ e2). by rewrite Ht2, Ht1, (assoc_L (++)).
Qed.

Lemma extends_add_events (w : world) (evs : list event) :
  extends w (add_events w evs).
Proof. split; [done |]. by exists evs. Qed.

Lemma extends_sent (w : world) c (evs : list event) :
  extends w (add_events (with_client w c) evs).
Proof. split; [done |]. by exists evs. Qed.

Lemma validate_payload_extends (payload : gmap string json) (n : string)
    (schemas : gmap string json) (w : world) :
  extends w (validate_payload payload n schemas w).2.
Proof.
  destruct (validate_payload_frame payload n schemas w) as (evs & -> & _).
  apply extends_add_events.
Qed.

Lemma serialize_and_send_extends (topic : string)
    (payload : gmap string json) (w : world) :
  extends w (serialize_and_send topic payload w).2.
Proof.
  destruct (serialize_and_send_events topic payload w) as (c & tl & -> & _).
  apply extends_sent.
Qed.

Lemma publish_payload_extends (topic : string) (payload : gmap string json)
    (w : world) :
  extends w (publish_payload topic payload w).2.
Proof.
  rewrite publish_payload_run. destruct (classify topic payload) as [n|].
  - pose proof (validate_payload_extends payload n (SCHEMAS w) w) as Hv.
    destruct (validate_payload payload n (SCHEMAS w) w) as [[[|]|ex] w1];
      simpl in Hv |- *; [| | done].
    + eapply extends_trans; [exact Hv | apply serialize_and_send_extends].
    + eapply extends_trans; [exact Hv | apply extends_add_events].
  - eapply extends_trans;
      [apply extends_add_events | apply serialize_and_send_extends].
Qed.

Lemma publish_and_report_extends (indent : nat) (description topic : string)
    (payload : gmap string json) (w : world) :
  extends w (publish_and_report indent description topic payload w).2.
Proof.
  rewrite publish_and_report_run.
  pose proof (publish_payload_extends topic payload w) as Hp.
  destruct (publish_payload topic payload w) as [[[|]|ex] w1];
    simpl in Hp |- *; [| | done];
    (eapply extends_trans; [exact Hp | apply extends_add_events]).
Qed.

Lemma for_each_extends {A : Type} (l : list A) (body : A → M unit) :
  (∀ x w, extends w (body x w).2) →
  ∀ w, extends w (for_each l body w).2.
Proof.
  intros Hbody. induction l as [|x l IH]; intros w.
  - apply extends_refl.
  - rewrite for_each_cons. pose proof (Hbody x w) as Hx.
    destruct (body x w) as [[u|ex] w1]; simpl in Hx |- *; [| done].
    eapply extends_trans; [exact Hx | apply IH].
Qed.

Lemma for_each_returns {A : Type} (l : list A) (body : A → M unit) :
  (∀ x w, (body x w).1 = Returned tt) →
  ∀ w, (for_each l body w).1 = Returned tt.
Proof.
  intros Hbody. induction l as [|x l IH]; intros w; [done |].
  rewrite for_each_cons. pose proof (Hbody x w) as Hx.
  destruct (body x w) as [[u|ex] w1]; simpl in Hx; [apply IH | done].
Qed.

Lemma publish_value_payloads_extends (base_topic value_type : string)
    (value_payloads : list (string * gmap string json * string)) (w : world) :
  extends w (publish_value_payloads base_topic value_type value_payloads w).2.
Proof.
  unfold publish_value_payloads. apply for_each_extends.
  intros [[suffix payload] desc] w0. apply publish_and_report_extends.
Qed.

(** [publish_schema_type] as a function of what its [try] block does. *)
Lemma publish_schema_type_run (p : pump) (base_topic schema_type : string)
    (description : string) (payload_func : option (pump → gmap string json))
    (w : world) :
  publish_schema_type p base_topic (schema_type, (description, payload_func)) w =
    let w0 := add_events w [Stdout (PublishingSchema (ascii_upper schema_type))] in
    let body :=
      if String.eqb schema_type "value" then
        for_each VALUE_PAYLOADS
          (λ '(value_type, (value_description, value_payload_func)),
             print (PublishingValues value_description);;
             publish_value_payloads base_topic value_type
               (value_payload_func p))
      else
        match payload_func with
        | Some f =>
            publish_and_report 2 description
              (base_topic +:+ "/" +:+ schema_type) (f p)
        | None =>
            raise (PyException "TypeError"
                     "'NoneType' object is not callable")
        end in
    match body w0 with
    | (Returned u, w1) => (Returned u, w1)
    | (Raised ex, w1) =>
        (Returned tt,
         add_events w1 [Log ERROR (ErrorPublishing schema_type ex);
                        Stdout (ItemError description ex)])
    end.
Proof.
  unfold publish_schema_type. unfold mbind at 1, M_bind at 1.
  unfold print at 1, emit at 1. unfold try_except. simpl.
  match goal with
  | |- match ?b with _ => _ end = match ?b' with _ => _ end =>
      change b' with b; destruct b as [[u|ex] w1]
  end; [done |]. by run_steps.
Qed.

Lemma publish_schema_type_returns (p : pump) (base_topic : string)
    (entry : string * (string * option (pump → gmap string json)))
    (w : world) :
  (publish_schema_type p base_topic entry w).1 = Returned tt.
Proof.
  destruct entry as [schema_type [description payload_func]].
  rewrite publish_schema_type_run. simpl.
  by match goal with
     | |- (match ?b with _ => _ end).1 = _ => destruct b as [[[]|ex] w1]
     end.
Qed.

Lemma publish_schema_type_extends (p : pump) (base_topic : string)
    (entry : string * (string * option (pump → gmap string json)))
    (w : world) :
  extends w (publish_schema_type p base_topic entry w).2.
Proof.
  destruct entry as [schema_type [description payload_func]].
  rewrite publish_schema_type_run. simpl.
  set (w0 := add_events w [Stdout (PublishingSchema (ascii_upper schema_type))]).
  assert (Hbody : ∀ body : M unit,
            (∀ w', extends w' (body w').2) →
            extends w
              (match body w0 with
               | (Returned u, w1) => (Returned u, w1)
               | (Raised ex, w1) =>
                   (Returned tt,
                    add_events w1 [Log ERROR (ErrorPublishing schema_type ex);
                                   Stdout (ItemError description ex)])
               end).2).
  { intros body Hb. pose proof (Hb w0) as Hw0.
    destruct (body w0) as [[u|ex] w1]; simpl in Hw0 |- *.
    - eapply extends_trans; [apply extends_add_events | exact Hw0].
    - eapply extends_trans; [apply extends_add_events |].
      eapply extends_trans; [exact Hw0 | apply extends_add_events]. }
  apply Hbody. intros w'.
  destruct (String.eqb schema_type "value").
  - apply for_each_extends. intros [vt [vd vf]] w2.
    unfold mbind, M_bind, print, emit. simpl.
    eapply extends_trans;
      [apply extends_add_events | apply publish_value_payloads_extends].
  - destruct payload_func as [f|].
    + apply publish_and_report_extends.
    + apply extends_refl.
Qed.



(** X3.  No exception escapes a sweep: whatever the validator, the
    serializer's consumer and the client do (return, reject, raise), the
    work for one asset and the whole of [publish_cycle] return
    normally. *)
Theorem publish_cycle_contains_errors (w : world) :
  (publish_cycle w).1 = Returned tt ∧
  ∀ p, (publish_for_pump p w).1 = Returned tt.
Proof.
  split.
  - unfold publish_cycle. apply for_each_returns. intros p w'.
    unfold publish_for_pump. unfold mbind, M_bind, print, emit. simpl.
    apply for_each_returns. intros entry w0.
    apply publish_schema_type_returns.
  - intros p. unfold publish_for_pump.
    unfold mbind, M_bind, print, emit. simpl.
    apply for_each_returns. intros entry w0.
    apply publish_schema_type_returns.
Qed.

(** X4.  A sweep never changes the registry and never drops an event:
    after [publish_cycle] the [SCHEMAS] dictionary is the one before, and
    the events are those before followed by new ones. *)
Theorem publish_cycle_frame (w : world) :
  SCHEMAS (publish_cycle w).2 = SCHEMAS w ∧
  ∃ evs, trace (publish_cycle w).2 = trace w ++ evs.
Proof.
  change (extends w (publish_cycle w).2).
  unfold publish_cycle. apply for_each_extends. intros p w'.
  unfold publish_for_pump. unfold mbind, M_bind, print, emit. simpl.
  eapply extends_trans; [apply extends_add_events |].
  apply for_each_extends. intros entry w0.
  apply publish_schema_type_extends.
Qed.





(** X6.  A validator that raises something other than [ValidationError]
    (a malformed schema document, say) is not a rejection:
    [publish_payload] raises with nothing logged and nothing transmitted,
    and the loop over [SCHEMA_PAYLOADS] reports an error for that schema
    type and returns normally. *)
Theorem validator_error_reported (w : world) (topic : string)
    (payload : gmap string json) (n : string) (schema : json) (ex : exn) :
  classify topic payload = Some n →
  SCHEMAS w !! n = Some schema →
  jsonschema_validate (JObj payload) schema = Failed ex →
  publish_payload topic payload w = (Raised ex, w) ∧
  ∀ p schema_type description payload_func,
    String.eqb schema_type "value" = false →
    payload_func p = payload →
    topic = base_topic_of p +:+ "/" +:+ schema_type →
    publish_schema_type p (base_topic_of p)
      (schema_type, (description, Some payload_func)) w =
    (Returned tt,
     add_events w
       [Stdout (PublishingSchema (ascii_upper schema_type));
        Log ERROR (ErrorPublishing schema_type ex);
        Stdout (ItemError description ex)]).
Proof.
  intros Hc Hs Hv.
  assert (Hp : ∀ w0 : world, SCHEMAS w0 = SCHEMAS w →
               publish_payload topic payload w0 = (Raised ex, w0)).
  { intros w0 Hw0.
    by rewrite publish_payload_run, Hc, validate_payload_run, Hw0, Hs, Hv. }
  split; [by apply Hp |].
  intros p schema_type description payload_func Hne Hf Ht.
  rewrite publish_schema_type_run. simpl. rewrite Hne, Hf, <- Ht.
  rewrite publish_and_report_run, Hp by done.
  by rewrite add_events_add_events.
Qed.


(** X8.  A payload that passed (or skipped) validation and that the
    client refuses with a return code other than [MQTT_ERR_SUCCESS] is
    shown by the loop with the same line as a rejected one: after the
    transmission and the "failed to publish" log, [publish_and_report]
    prints the validation-failed line. *)
Theorem transport_failure_shown_as_validation_failure (w : world)
    (indent : nat) (description topic : string)
    (payload : gmap string json) (rc : Z) (c : client_state) :
  (classify topic payload = None ∨
   ∃ n, classify topic payload = Some n ∧
        (validate_payload payload n (SCHEMAS w) w).1 = Returned true) →
  client_publish (client w) topic (json_dumps (JObj payload)) MQTT_QOS
    = (Returned rc, c) →
  rc ≠ MQTT_ERR_SUCCESS →
  ∃ evs,
    Forall (λ ev, is_transmit ev = false) evs ∧
    publish_and_report indent description topic payload w =
      (Returned tt,
       add_events (with_client w c)
         (evs ++ [Transmit topic (json_dumps (JObj payload)) MQTT_QOS;
                  Log ERROR (FailedToPublish topic rc);
                  Stdout (ItemValidationFailed indent description)])).
Proof.
  intros Hgate Hsend Hrc.
  assert (Hne : Z.eqb rc MQTT_ERR_SUCCESS = false) by by apply Z.eqb_neq.
  assert (Hsent : ∀ evs,
    serialize_and_send topic payload (add_events w evs) =
    (Returned false,
     add_events (with_client w c)
       (evs ++ [Transmit topic (json_dumps (JObj payload)) MQTT_QOS;
                Log ERROR (FailedToPublish topic rc)]))).
  { intros evs. rewrite serialize_and_send_run. simpl.
    rewrite Hsend, Hne. unfold add_events, with_client. simpl.
    by rewrite <- (assoc_L (++)). }
  rewrite publish_and_report_run, publish_payload_run.
  destruct Hgate as [-> | (n & -> & Hv)].
  - eexists. split; [| rewrite Hsent, add_events_add_events;
                       by rewrite <- (assoc_L (++))].
    by repeat constructor.
  - destruct (validate_payload_frame payload n (SCHEMAS w) w)
      as (evs & Hw & Hsilent).
    destruct (validate_payload payload n (SCHEMAS w) w) as [r w1].
    simpl in Hv, Hw. subst r w1.
    exists evs. split; [done |].
    rewrite Hsent, add_events_add_events. by rewrite <- (assoc_L (++)).
Qed.

End CycleFacts.

(** ** From the schema files to the gate *)

Section StartupGate.

Context `{SchemaStore} `{Libraries} `{Settings}.


End StartupGate.

(** ** The further theorems at the example inputs *)

Lemma load_schemas_registry_witness :
  ("measurement", "measurement/measurement.json") ∈ schema_files ∧
  ("telemetry" ∉ schema_names) ∧
  (@load_schemas measurement_only_store).1 !! "measurement" =
    Some measurement_schema ∧
  (@load_schemas measurement_only_store).1 !! "telemetry" = None.
Proof.
  assert (Hin : ("measurement", "measurement/measurement.json") ∈ schema_files)
    by (unfold schema_files; rewrite !elem_of_cons; auto 10).
  assert (Hout : "telemetry" ∉ schema_names).
  { unfold schema_names. rewrite !elem_of_cons, elem_of_nil.
    intros Hor. repeat (destruct Hor as [Hor | Hor]; [discriminate Hor |]).
    done. }
  split; [exact Hin |]. split; [exact Hout |]. split.
  - exact (proj2 (@load_schemas_registry measurement_only_store "measurement")
             _ Hin).
  - exact (proj1 (@load_schemas_registry measurement_only_store "telemetry")
             Hout).
Defined.

Lemma load_schemas_reports_witness :
  "asset" ∈ schema_names ∧
  (@load_schemas measurement_only_store).1 !! "asset" = None ∧
  ∃ e, (WARNING, SchemaNotLoaded "asset" e) ∈
         (@load_schemas measurement_only_store).2.
Proof.
  assert (Hin : "asset" ∈ schema_names)
    by (unfold schema_names; rewrite !elem_of_cons; auto 10).
  assert (Hnone : (@load_schemas measurement_only_store).1 !! "asset" = None)
    by (vm_compute; reflexivity).
  split; [exact Hin |]. split; [exact Hnone |].
  exact (proj2 (proj2 (@load_schemas_reports measurement_only_store))
           "asset" Hin Hnone).
Defined.


Lemma validator_error_reported_witness :
  classify measurement_topic complete_measurement = Some "measurement" ∧
  SCHEMAS broken_world !! "measurement" = Some JNull ∧
  @jsonschema_validate example_libraries (JObj complete_measurement) JNull =
    Failed (PyException "SchemaError" "not a schema document") ∧
  @publish_payload example_libraries example_settings
    measurement_topic complete_measurement broken_world =
  (Raised (PyException "SchemaError" "not a schema document"), broken_world).
Proof.
  assert (Hc : classify measurement_topic complete_measurement
               = Some "measurement") by (vm_compute; reflexivity).
  assert (Hs : SCHEMAS broken_world !! "measurement" = Some JNull)
    by (vm_compute; reflexivity).
  assert (Hv : @jsonschema_validate example_libraries
                 (JObj complete_measurement) JNull =
               Failed (PyException "SchemaError" "not a schema document"))
    by (vm_compute; reflexivity).
  split; [exact Hc |]. split; [exact Hs |]. split; [exact Hv |].
  exact (proj1
    (@validator_error_reported example_libraries example_settings
       broken_world measurement_topic complete_measurement "measurement"
       JNull _ Hc Hs Hv)).
Defined.


Lemma transport_failure_shown_as_validation_failure_witness :
  (classify measurement_topic complete_measurement = None ∨
   ∃ n, classify measurement_topic complete_measurement = Some n ∧
        (@validate_payload example_libraries complete_measurement n
           (SCHEMAS offline_world) offline_world).1 = Returned true) ∧
  connection_publish false measurement_topic "{...}" 1 = (Returned 4%Z, false) ∧
  4%Z ≠ MQTT_ERR_SUCCESS ∧
  ∃ evs,
    Forall (λ ev, is_transmit ev = false) evs ∧
    @publish_and_report example_libraries example_settings 2
      "Bearing temperature" measurement_topic complete_measurement
      offline_world =
    (Returned tt,
     add_events (with_client offline_world false)
       (evs ++ [Transmit measurement_topic "{...}" 1;
                Log ERROR (FailedToPublish measurement_topic 4);
                Stdout (ItemValidationFailed 2 "Bearing temperature")])).
Proof.
  assert (Hgate :
    classify measurement_topic complete_measurement = None ∨
    ∃ n, classify measurement_topic complete_measurement = Some n ∧
         (@validate_payload example_libraries complete_measurement n
            (SCHEMAS offline_world) offline_world).1 = Returned true).
  { right. exists "measurement". split; vm_compute; reflexivity. }
  assert (Hsend : connection_publish false measurement_topic "{...}" 1
                  = (Returned 4%Z, false)) by (vm_compute; reflexivity).
  assert (Hrc : 4%Z ≠ MQTT_ERR_SUCCESS) by (unfold MQTT_ERR_SUCCESS; lia).
  split; [exact Hgate |]. split; [exact Hsend |]. split; [exact Hrc |].
  exact (@transport_failure_shown_as_validation_failure example_libraries
           example_settings offline_world 2 "Bearing temperature"
           measurement_topic complete_measurement 4%Z false
           Hgate Hsend Hrc).
Defined.


(** ** Substring tests and path segments *)

Lemma slash_app (y : string) : "/" +:+ y = String "/" y.
Proof. reflexivity. Qed.

Lemma slash_free_cons (c : ascii) (s : string) :
  slash_free (String c s) = true → c ≠ "/"%char ∧ slash_free s = true.
Proof.
  simpl. intros [Hc Hs]%andb_true_iff. split; [| done].
  intros ->. by rewrite Ascii.eqb_refl in Hc.
Qed.

Lemma slash_free_no_slash (x a z : string) :
  slash_free x = true → x ≠ a +:+ "/" +:+ z.
Proof.
  revert x. induction a as [|c a IH]; intros x Hx Heq.
  - rewrite string_app_nil, slash_app in Heq. subst x.
    by apply slash_free_cons in Hx as [Hc _].
  - rewrite string_app_cons in Heq. subst x.
    apply slash_free_cons in Hx as [_ Hx]. by eapply IH.
Qed.

(** Where the first slash is. *)
Lemma first_slash (x y a z : string) :
  slash_free x = true →
  x +:+ "/" +:+ y = a +:+ "/" +:+ z →
  (a = x ∧ z = y) ∨ (∃ a', a = x +:+ "/" +:+ a' ∧ y = a' +:+ "/" +:+ z).
Proof.
  revert a. induction x as [|c x IH]; intros a Hx Heq.
  - rewrite string_app_nil, slash_app in Heq. destruct a as [|d a].
    + rewrite string_app_nil, slash_app in Heq. injection Heq as ->. by left.
    + rewrite string_app_cons in Heq. injection Heq as <- ->.
      right. exists a. by rewrite string_app_nil, slash_app.
  - apply slash_free_cons in Hx as [Hc Hx].
    rewrite string_app_cons in Heq. destruct a as [|d a].
    + rewrite string_app_nil, slash_app in Heq. by injection Heq as -> _.
    + rewrite string_app_cons in Heq. injection Heq as <- Heq.
      destruct (IH a Hx Heq) as [[-> ->] | (a' & -> & ->)].
      * by left.
      * right. exists a'. by rewrite string_app_cons.
Qed.

Lemma prefix_of_segment (kw x y b : string) :
  slash_free kw = true →
  x +:+ "/" +:+ y = kw +:+ b →
  String.prefix kw x = true.
Proof.
  revert x. induction kw as [|k kw IH]; intros x Hkw Heq.
  - by destruct x.
  - apply slash_free_cons in Hkw as [Hk Hkw].
    rewrite (string_app_cons k kw b) in Heq. destruct x as [|c x].
    + rewrite string_app_nil, slash_app in Heq. by injection Heq as <- _.
    + rewrite (string_app_cons c x) in Heq. injection Heq as -> Heq. simpl.
      destruct (Ascii.ascii_dec k k); [by eapply IH | done].
Qed.

Lemma join_segments_cons (s r : string) (rest : list string) :
  join_segments (s :: r :: rest) = s +:+ "/" +:+ join_segments (r :: rest).
Proof. reflexivity. Qed.

Lemma inner_segments_cons (s r : string) (rest : list string) :
  inner_segments (s :: r :: rest) = removelast (r :: rest).
Proof. reflexivity. Qed.

Lemma removelast_cons2 (r r' : string) (rest : list string) :
  removelast (r :: r' :: rest) = r :: removelast (r' :: rest).
Proof. reflexivity. Qed.

Lemma occurrence_is_inner (segs : list string) (kw a b : string) :
  Forall (λ s, slash_free s = true) segs →
  slash_free kw = true →
  join_segments segs = a +:+ "/" +:+ kw +:+ "/" +:+ b →
  kw ∈ inner_segments segs.
Proof.
  intros Hsegs Hkw. revert a.
  induction Hsegs as [|s rest Hs Hrest IH]; intros a Heq.
  - simpl in Heq. destruct a; discriminate Heq.
  - destruct rest as [|r rest].
    + simpl in Heq. by apply slash_free_no_slash in Heq.
    + rewrite join_segments_cons in Heq. rewrite inner_segments_cons.
      apply Forall_cons in Hrest as [Hr Hrest'].
      destruct (first_slash _ _ _ _ Hs Heq) as [[-> Hj] | (a' & -> & Hj)].
      * destruct rest as [|r' rest].
        -- simpl in Hj. symmetry in Hj.
           by apply (slash_free_no_slash r kw b) in Hj.
        -- rewrite join_segments_cons in Hj. symmetry in Hj.
           destruct (first_slash _ _ _ _ Hr Hj) as [[-> _] | (a' & -> & _)].
           ++ rewrite removelast_cons2. by left.
           ++ exfalso. by eapply (slash_free_no_slash _ r a').
      * specialize (IH a' Hj). destruct rest as [|r' rest].
        -- by apply elem_of_nil in IH.
        -- rewrite removelast_cons2. right. exact IH.
Qed.

Lemma inner_is_occurrence (segs : list string) (kw : string) :
  kw ∈ inner_segments segs →
  is_substring ("/" +:+ kw +:+ "/") (join_segments segs).
Proof.
  induction segs as [|s rest IH]; [by intros ?%elem_of_nil |].
  destruct rest as [|r rest]; [by intros ?%elem_of_nil |].
  rewrite inner_segments_cons, join_segments_cons.
  destruct rest as [|r' rest]; [by intros ?%elem_of_nil |].
  rewrite removelast_cons2. intros [-> | Hin]%elem_of_cons.
  - rewrite join_segments_cons. exists s, (join_segments (r' :: rest)).
    by rewrite !string_app_assoc.
  - destruct (IH Hin) as (a & b & ->). exists (s +:+ "/" +:+ a), b.
    by rewrite !string_app_assoc.
Qed.

Lemma join_segments_head (r : string) (rest : list string) :
  ∃ t, join_segments (r :: rest) = r +:+ t.
Proof.
  destruct rest as [|r' rest].
  - exists "". simpl. induction r as [|c r IH]; [done |].
    by rewrite string_app_cons, <- IH.
  - rewrite join_segments_cons. eauto.
Qed.

Lemma occurrence_is_prefixed (segs : list string) (kw a b : string) :
  Forall (λ s, slash_free s = true) segs →
  slash_free kw = true →
  join_segments segs = a +:+ "/" +:+ kw +:+ b →
  existsb (String.prefix kw) (tail segs) = true.
Proof.
  intros Hsegs Hkw. revert a.
  induction Hsegs as [|s rest Hs Hrest IH]; intros a Heq.
  - simpl in Heq. destruct a; discriminate Heq.
  - destruct rest as [|r rest].
    + simpl in Heq. by apply slash_free_no_slash in Heq.
    + rewrite join_segments_cons in Heq.
      apply Forall_cons in Hrest as [Hr Hrest']. simpl.
      destruct (first_slash _ _ _ _ Hs Heq) as [[-> Hj] | (a' & -> & Hj)].
      * apply orb_true_iff. left. destruct rest as [|r' rest].
        -- simpl in Hj. apply prefix_split. eauto.
        -- rewrite join_segments_cons in Hj. symmetry in Hj.
           by eapply prefix_of_segment.
      * apply orb_true_iff. right. exact (IH a' Hj).
Qed.

Lemma prefixed_is_occurrence (segs : list string) (kw : string) :
  existsb (String.prefix kw) (tail segs) = true →
  is_substring ("/" +:+ kw) (join_segments segs).
Proof.
  induction segs as [|s rest IH]; [done |].
  destruct rest as [|r rest]; [done |].
  rewrite join_segments_cons. simpl tail.
  change (existsb (String.prefix kw) (r :: rest))
    with (String.prefix kw r || existsb (String.prefix kw) (tail (r :: rest))).
  intros [Hr | Hrest]%orb_true_iff.
  - apply prefix_split in Hr as [r'' ->].
    destruct (join_segments_head (kw +:+ r'') rest) as [t ->].
    exists s, (r'' +:+ t). by rewrite !string_app_assoc.
  - destruct (IH Hrest) as (a & b & ->). exists (s +:+ "/" +:+ a), b.
    by rewrite !string_app_assoc.
Qed.

Lemma contains_inner_segment (segs : list string) (kw : string) :
  Forall (λ s, slash_free s = true) segs →
  slash_free kw = true →
  contains ("/" +:+ kw +:+ "/") (join_segments segs) =
    existsb (String.eqb kw) (inner_segments segs).
Proof.
  intros Hsegs Hkw. apply Bool.eq_true_iff_eq.
  rewrite contains_is_substring, existsb_exists. split.
  - intros (a & b & Heq). rewrite !string_app_assoc in Heq.
    exists kw. split; [| apply String.eqb_refl].
    apply list_elem_of_In. by eapply occurrence_is_inner.
  - intros (s & Hin & ->%String.eqb_eq).
    by apply inner_is_occurrence, list_elem_of_In.
Qed.

Lemma contains_prefixed_segment (segs : list string) (kw : string) :
  Forall (λ s, slash_free s = true) segs →
  slash_free kw = true →
  contains ("/" +:+ kw) (join_segments segs) =
    existsb (String.prefix kw) (tail segs).
Proof.
  intros Hsegs Hkw. apply Bool.eq_true_iff_eq.
  rewrite contains_is_substring. split.
  - intros (a & b & Heq). rewrite !string_app_assoc in Heq.
    by eapply occurrence_is_prefixed.
  - apply prefixed_is_occurrence.
Qed.

(** X10.  On a topic made of path segments, the two kinds of substring
    test of the classifier say this: [/keyword/] occurs exactly when the
    keyword is a whole segment that is neither the first nor the last, and
    [/keyword] occurs exactly when some segment other than the first
    begins with the keyword. *)
Theorem substring_tests_on_segments (segs : list string) (kw : string) :
  Forall (λ s, slash_free s = true) segs →
  slash_free kw = true →
  contains ("/" +:+ kw +:+ "/") (join_segments segs) =
    bool_decide (kw ∈ inner_segments segs) ∧
  contains ("/" +:+ kw) (join_segments segs) =
    existsb (String.prefix kw) (tail segs).
Proof.
  intros Hsegs Hkw. split; [| by apply contains_prefixed_segment].
  rewrite contains_inner_segment by done.
  apply Bool.eq_true_iff_eq.
  rewrite bool_decide_eq_true, existsb_exists. split.
  - intros (s & Hin & ->%String.eqb_eq). by apply list_elem_of_In.
  - intros Hin. exists kw. split; [by apply list_elem_of_In |].
    apply String.eqb_refl.
Qed.

Lemma substring_tests_on_segments_witness :
  Forall (λ s, slash_free s = true) ["plant1"; "kpi"; "pump-101"; "kpi"] ∧
  slash_free "kpi" = true ∧
  contains "/kpi/" "plant1/kpi/pump-101/kpi" =
    bool_decide ("kpi" ∈ inner_segments ["plant1"; "kpi"; "pump-101"; "kpi"]).
Proof.
  assert (Hs : Forall (λ s, slash_free s = true)
                 ["plant1"; "kpi"; "pump-101"; "kpi"])
    by (by repeat constructor).
  assert (Hk : slash_free "kpi" = true) by reflexivity.
  split; [exact Hs |]. split; [exact Hk |].
  exact (proj1 (substring_tests_on_segments
                  ["plant1"; "kpi"; "pump-101"; "kpi"] "kpi" Hs Hk)).
Defined.

(** ** The topics the loop builds *)










Section LoopTopics.

Context `{Settings}.




End LoopTopics.


(** ** The gate, over a whole sweep *)

Section SweepGate.

Context `{Libraries} `{Settings}.

Lemma gated_refl (w : world) : gated w w.
Proof.
  split; [done |]. exists []. by rewrite (right_id_L [] (++)).
Qed.

Lemma gated_trans (w1 w2 w3 : world) : gated w1 w2 → gated w2 w3 → gated w1 w3.
Proof.
  intros [Hs1 (e1 & Ht1 & Hg1)] [Hs2 (e2 & Ht2 & Hg2)].
  split; [congruence |]. exists (e1 ++ e2).
  split; [by rewrite Ht2, Ht1, (assoc_L (++)) |].
  apply Forall_app. split; [done |]. by rewrite <- Hs1.
Qed.

Lemma silent_gated_event (schemas : gmap string json) (evs : list event) :
  Forall (λ ev, is_transmit ev = false) evs →
  Forall (gated_event schemas) evs.
Proof.
  intros Hs. eapply Forall_impl; [exact Hs |]. by intros [].
Qed.

Lemma gated_silent (w : world) (evs : list event) :
  Forall (λ ev, is_transmit ev = false) evs → gated w (add_events w evs).
Proof.
  intros Hs. split; [done |]. exists evs. split; [done |].
  by apply silent_gated_event.
Qed.

(** Sending is in order when the gate let the payload through. *)
Lemma serialize_and_send_gated (topic : string) (payload : gmap string json)
    (w : world) :
  passes_gate (SCHEMAS w) topic payload →
  gated w (serialize_and_send topic payload w).2.
Proof.
  intros Hpass.
  destruct (serialize_and_send_events topic payload w) as (c & tl & -> & Htl).
  split; [done |]. eexists. split; [done |]. constructor.
  - split; [done |]. by exists payload.
  - by apply silent_gated_event.
Qed.

Lemma publish_payload_gated (topic : string) (payload : gmap string json)
    (w : world) :
  gated w (publish_payload topic payload w).2.
Proof.
  rewrite publish_payload_run.
  destruct (classify topic payload) as [n|] eqn:Hc.
  - rewrite validate_payload_run.
    destruct (SCHEMAS w !! n) as [schema|] eqn:Hs.
    + destruct (jsonschema_validate (JObj payload) schema) as [|e|ex] eqn:Hv.
      * apply serialize_and_send_gated. unfold passes_gate.
        by rewrite Hc, Hs.
      * simpl. rewrite add_events_add_events. apply gated_silent.
        apply Forall_app. split; [apply rejection_events_silent |].
        by repeat constructor.
      * apply gated_refl.
    + eapply gated_trans;
        [| apply serialize_and_send_gated; unfold passes_gate; simpl;
           by rewrite Hc, Hs].
      apply gated_silent. by repeat constructor.
  - eapply gated_trans;
      [| apply serialize_and_send_gated; unfold passes_gate; by rewrite Hc].
    apply gated_silent. by repeat constructor.
Qed.

Lemma publish_and_report_gated (indent : nat) (description topic : string)
    (payload : gmap string json) (w : world) :
  gated w (publish_and_report indent description topic payload w).2.
Proof.
  rewrite publish_and_report_run.
  pose proof (publish_payload_gated topic payload w) as Hp.
  destruct (publish_payload topic payload w) as [[[|]|ex] w1];
    simpl in Hp |- *; [| | done];
    (eapply gated_trans; [exact Hp |]; apply gated_silent;
     by repeat constructor).
Qed.

Lemma for_each_gated {A : Type} (l : list A) (body : A → M unit) :
  (∀ x w, gated w (body x w).2) →
  ∀ w, gated w (for_each l body w).2.
Proof.
  intros Hbody. induction l as [|x l IH]; intros w.
  - apply gated_refl.
  - rewrite for_each_cons. pose proof (Hbody x w) as Hx.
    destruct (body x w) as [[u|ex] w1]; simpl in Hx |- *; [| done].
    eapply gated_trans; [exact Hx | apply IH].
Qed.

Lemma publish_schema_type_gated (p : pump) (base_topic : string)
    (entry : string * (string * option (pump → gmap string json)))
    (w : world) :
  gated w (publish_schema_type p base_topic entry w).2.
Proof.
  destruct entry as [schema_type [description payload_func]].
  rewrite publish_schema_type_run. simpl.
  set (w0 := add_events w [Stdout (PublishingSchema (ascii_upper schema_type))]).
  assert (Hw0 : gated w w0) by (apply gated_silent; by repeat constructor).
  assert (Hbody : ∀ body : M unit,
            (∀ w', gated w' (body w').2) →
            gated w
              (match body w0 with
               | (Returned u, w1) => (Returned u, w1)
               | (Raised ex, w1) =>
                   (Returned tt,
                    add_events w1 [Log ERROR (ErrorPublishing schema_type ex);
                                   Stdout (ItemError description ex)])
               end).2).
  { intros body Hb. pose proof (Hb w0) as Hb0.
    destruct (body w0) as [[u|ex] w1]; simpl in Hb0 |- *.
    - eapply gated_trans; [exact Hw0 | exact Hb0].
    - eapply gated_trans; [exact Hw0 |].
      eapply gated_trans; [exact Hb0 |].
      apply gated_silent. by repeat constructor. }
  apply Hbody. intros w'.
  destruct (String.eqb schema_type "value").
  - apply for_each_gated. intros [vt [vd vf]] w2.
    unfold mbind, M_bind, print, emit. simpl.
    eapply gated_trans;
      [| unfold publish_value_payloads; apply for_each_gated;
         intros [[suffix payload] desc] w3; apply publish_and_report_gated].
    apply gated_silent. by repeat constructor.
  - destruct payload_func as [f|].
    + apply publish_and_report_gated.
    + apply gated_refl.
Qed.

Lemma publish_cycle_gated (w : world) : gated w (publish_cycle w).2.
Proof.
  unfold publish_cycle. apply for_each_gated. intros p w'.
  unfold publish_for_pump. unfold mbind, M_bind, print, emit. simpl.
  eapply gated_trans;
    [| apply for_each_gated; intros entry w0;
       apply publish_schema_type_gated].
  apply gated_silent. by repeat constructor.
Qed.

(** X12.  The gate holds for a whole sweep: every call of
    [client.publish] made during [publish_cycle] carries, at [MQTT_QOS],
    the serialization of a payload for which no schema name was resolved,
    or whose resolved schema is not in the registry, or which the
    validator accepted against the registry's document for that name. *)
Theorem sweep_transmits_only_gated (w : world) (topic payload_json : string)
    (qos : Z) :
  Transmit topic payload_json qos ∈ new_events w (publish_cycle w).2 →
  qos = MQTT_QOS ∧
  ∃ payload, payload_json = json_dumps (JObj payload) ∧
             passes_gate (SCHEMAS w) topic payload.
Proof.
  destruct (publish_cycle_gated w) as [_ (evs & Ht & Hg)].
  unfold new_events. rewrite Ht, drop_app_length. intros Hin.
  rewrite Forall_forall in Hg. exact (Hg _ Hin).
Qed.

End SweepGate.

Lemma sweep_transmits_only_gated_witness :
  Transmit
    "abelara/plant1/utilities/water-system/pump-station/pump-101/asset"
    "{...}" 1 ∈
    new_events loaded_world
      (@publish_cycle example_libraries example_settings loaded_world).2 ∧
  ∃ payload,
    "{...}" = @json_dumps example_libraries (JObj payload) ∧
    @passes_gate example_libraries (SCHEMAS loaded_world)
      "abelara/plant1/utilities/water-system/pump-station/pump-101/asset"
      payload.
Proof.
  assert (Hin :
    Transmit
      "abelara/plant1/utilities/water-system/pump-station/pump-101/asset"
      "{...}" 1 ∈
      new_events loaded_world
        (@publish_cycle example_libraries example_settings loaded_world).2).
  { apply list_elem_of_In. vm_compute. auto 20. }
  split; [exact Hin |].
  exact (proj2 (@sweep_transmits_only_gated example_libraries
                  example_settings loaded_world _ _ _ Hin)).
Defined.

(** ** The publisher around the sweeps *)

Section SessionFacts.

Context `{Session} `{Settings}.




(** X13.  If [connect] raises, the publisher logs the connection error,
    stops the network loop, disconnects and returns: no sweep is made and
    nothing is transmitted, however long one waits. *)
Theorem connection_failure_cleans_up (k : nat) (w : world)
    (c c1 : client_state) (log : list session_event) (e : exn) :
  configure_client = (Returned tt, c, log) →
  client_connect c BROKER_ADDRESS BROKER_PORT MQTT_KEEPALIVE = (Raised e, c1) →
  publish_pump_data k w =
    (Done,
     with_client w (client_disconnect (loop_stop c1)),
     log ++ [Connecting BROKER_ADDRESS BROKER_PORT MQTT_KEEPALIVE;
             ConnectionFailed e; LoopStopped; Disconnected; Goodbye]) ∧
  trace (publish_pump_data k w).1.2 = trace w.
Proof.
  intros Hconf Hconn.
  assert (Hrun : publish_pump_data k w =
    (Done,
     with_client w (client_disconnect (loop_stop c1)),
     log ++ [Connecting BROKER_ADDRESS BROKER_PORT MQTT_KEEPALIVE;
             ConnectionFailed e; LoopStopped; Disconnected; Goodbye])).
  { unfold publish_pump_data. rewrite Hconf, Hconn.
    unfold on_exception, finally_disconnect. simpl.
    by rewrite <- !(assoc_L (++)). }
  split; [exact Hrun |]. by rewrite Hrun.
Qed.



End SessionFacts.

Lemma connection_failure_cleans_up_witness :
  @configure_client example_libraries (example_session "" 5) =
    (Returned tt, false, [ClientCreated]) ∧
  @client_connect example_libraries (example_session "" 5) false "" 1883 60 =
    (Raised (PyException "ValueError" "Invalid host."), false) ∧
  trace (@publish_pump_data example_libraries (example_session "" 5)
           example_settings 3 loaded_world).1.2 = trace loaded_world.
Proof.
  assert (Hconf : @configure_client example_libraries (example_session "" 5)
                  = (Returned tt, false, [ClientCreated])) by reflexivity.
  assert (Hconn : @client_connect example_libraries (example_session "" 5)
                    false "" 1883 60 =
                  (Raised (PyException "ValueError" "Invalid host."), false))
    by reflexivity.
  split; [exact Hconf |]. split; [exact Hconn |].
  exact (proj2 (@connection_failure_cleans_up example_libraries
                  (example_session "" 5) example_settings 3 loaded_world
                  false false [ClientCreated] _ Hconf Hconn)).
Defined.



(** ** The payload generators *)

Lemma random_choice_some {A : Type} (seq : list A) (draw : nat) :
  seq ≠ [] → ∃ x, random_choice seq draw = Some x ∧ x ∈ seq.
Proof.
  intros Hne. unfold random_choice.
  assert (Hlt : (draw mod length seq < length seq)%nat).
  { apply Nat.mod_upper_bound. by destruct seq. }
  apply lookup_lt_is_Some_2 in Hlt as [x Hx].
  exists x. split; [done |]. by eapply list_elem_of_lookup_2.
Qed.

(** X16.  [create_state_payload] always returns a payload, whatever
    [random] draws: the current state and the previous state it reports
    are two of the five states, and never the same one. *)
Theorem state_payload_previous_differs (pump : asset) (d : state_draws) :
  ∃ payload cur prev,
    create_state_payload pump d = Some payload ∧
    json_get ["type"; "id"] (JObj payload) = Some (JInt cur) ∧
    json_get ["metadata"; "previousState"; "id"] (JObj payload)
      = Some (JInt prev) ∧
    (1 ≤ cur ≤ 5)%Z ∧ (1 ≤ prev ≤ 5)%Z ∧ cur ≠ prev.
Proof.
  unfold create_state_payload.
  destruct (random_choice_some pump_states (current_draw d))
    as (cur & -> & Hcur); [done |].
  destruct (random_choice_some ["AUTO"; "MANUAL"] (mode_draw d))
    as (mode & Hmode & _); [done |].
  destruct (random_choice_some ["John Smith"; "Jane Doe"; "Bob Wilson"]
              (operator_draw d)) as (operator & Hop & _); [done |].
  unfold pump_states in Hcur. rewrite !elem_of_cons, elem_of_nil in Hcur.
  simpl.
  repeat (destruct Hcur as [-> | Hcur]; [
    match goal with
    | |- context [random_choice ?l (previous_draw d)] =>
        let l' := eval vm_compute in l in
        change l with l';
        destruct (random_choice_some l' (previous_draw d))
          as (prev & -> & Hprev); [done |];
        rewrite !elem_of_cons, elem_of_nil in Hprev
    end;
    simpl; rewrite Hmode; simpl; rewrite Hop; simpl;
    repeat (destruct Hprev as [-> | Hprev]; [
      eexists _, _, _; split; [reflexivity |];
      split; [by vm_compute |]; split; [by vm_compute |];
      simpl; lia |]);
    done |]).
  done.
Qed.

(** X17.  The payload-shape fallback recognises none of the asset,
    product and state payloads, for any asset, any timestamp and any
    draw: they carry no identifier key and never the three keys [type],
    [value] and [unit] together.  Their schema can only come from the
    topic. *)
Theorem generated_payloads_unknown_to_fallback (pump : asset)
    (timestamp : string) (d : state_draws) :
  classify_payload (create_asset_payload pump timestamp) = None ∧
  classify_payload (create_product_payload pump timestamp) = None ∧
  ∀ payload, create_state_payload pump d = Some payload →
             classify_payload payload = None.
Proof.
  split; [by vm_compute |]. split; [by vm_compute |].
  intros payload. unfold create_state_payload.
  destruct (random_choice pump_states (current_draw d)) as [cur|];
    [| done]. simpl.
  destruct (random_choice _ (previous_draw d)) as [prev|]; [| done]. simpl.
  destruct (random_choice _ (mode_draw d)) as [mode|]; [| done]. simpl.
  destruct (random_choice _ (operator_draw d)) as [operator|]; [| done].
  simpl. intros [= <-]. by vm_compute.
Qed.

Lemma generated_payloads_unknown_to_fallback_witness :
  ∃ payload,
    create_state_payload pump_101_entry example_state_draws = Some payload ∧
    classify_payload payload = None.
Proof.
  destruct (create_state_payload pump_101_entry example_state_draws)
    as [payload|] eqn:Hp.
  - exists payload. split; [reflexivity |].
    exact (proj2 (proj2
      (generated_payloads_unknown_to_fallback pump_101_entry
         "2025-01-01T00:00:00+00:00" example_state_draws)) payload Hp).
  - vm_compute in Hp. discriminate Hp.
Defined.
